(** * Email HTML fetcher: a shallow embedding of [src/index.js]

    The service exposes one interesting route, [POST /fetch-email].  Its
    handler validates the request body, resolves the provider to an IMAP
    configuration, and races an IMAP session against a 90 second timer.
    The session itself is a chain of callbacks closed over one promise,
    one timer and one variable [foundEmail].

    The embedding follows that shape:
    - [Js]            the pieces of the JavaScript runtime the code relies
                      on (truthiness, [toLowerCase], [includes],
                      [toFixed(2)], [toISOString], promises that settle
                      once);
    - [Config]        [getImapConfig] and the property lookup behind it;
    - [Parsed], [Email], [Materializer]
                      the parser's record, the object stored in
                      [foundEmail], and the construction of the one from
                      the other;
    - [Session]       [fetchEmailBySubjectOptimized] as a transition
                      function over the callbacks the IMAP client, the
                      parser and the timer may invoke;
    - [Route]         the handler of [POST /fetch-email]: validation, the
                      race, and the mapping of the outcome to an HTTP
                      response;
    - [Root]          the table of links the root endpoint documents.

    Strings are byte strings.  Times are integers, in milliseconds since
    the epoch, as [Date.now()] returns them; one callback reads the clock
    once, and a timer's callback runs no earlier than the timer is due.
    Logging is not modelled. *)

From Stdlib Require Import ZArith String Ascii List Bool Lia.
From Stdlib Require Import DecimalString.
Import ListNotations.

Open Scope string_scope.
Open Scope Z_scope.

(* ================================================================== *)
(** * The JavaScript runtime, as far as the program uses it *)
(* ================================================================== *)

Module Js.

(** The double quote and the line feed, which the program's string
    literals contain. *)
Definition dquote : string := String "034"%char EmptyString.
Definition newline : string := String "010"%char EmptyString.

(** ** Truthiness *)

(** A string is falsy exactly when it is empty. *)
Definition truthy_string (s : string) : bool :=
  match s with
  | EmptyString => false
  | String _ _ => true
  end.

(** A value that may be [undefined]: [undefined] is falsy, a string is
    truthy unless empty. *)
Definition truthy (v : option string) : bool :=
  match v with
  | None => false
  | Some s => truthy_string s
  end.

(** [v || ''] for a possibly undefined string [v]. *)
Definition or_empty (v : option string) : string :=
  match v with
  | None => EmptyString
  | Some s => if truthy_string s then s else EmptyString
  end.

(** ** [String.prototype.toLowerCase]

    Strings are UTF-8 byte strings.  The letters [A] to [Z] are mapped to
    [a] to [z], and the Kelvin sign U+212A (the bytes 226, 132, 170) is
    mapped to [k]: it is the one character beyond ASCII whose lower case
    consists of ASCII characters.  Every other byte is kept.  So the
    result is the built-in's on strings of ASCII characters and Kelvin
    signs, and on every other string the result, like the built-in's, is
    no ASCII string: the two agree wherever the result is compared with
    an ASCII string, which is all the program does with it.  The lower
    case of other characters beyond ASCII is not modelled. *)
Definition lower_ascii (c : ascii) : ascii :=
  let n := nat_of_ascii c in
  if ((65 <=? n) && (n <=? 90))%nat then ascii_of_nat (n + 32) else c.

Definition kelvin_sign : string :=
  String "226"%char (String "132"%char (String "170"%char EmptyString)).

Definition is_kelvin (c1 c2 c3 : ascii) : bool :=
  Ascii.eqb c1 "226"%char && Ascii.eqb c2 "132"%char &&
  Ascii.eqb c3 "170"%char.

Fixpoint toLowerCase (s : string) : string :=
  match s with
  | EmptyString => EmptyString
  | String c1 r1 =>
      match r1 with
      | String c2 (String c3 r3) =>
          if is_kelvin c1 c2 c3
          then String "k"%char (toLowerCase r3)
          else String (lower_ascii c1) (toLowerCase r1)
      | _ => String (lower_ascii c1) (toLowerCase r1)
      end
  end.

(** ** [String.prototype.includes] *)
Fixpoint includes (s sub : string) : bool :=
  String.prefix sub s ||
  match s with
  | EmptyString => false
  | String _ r => includes r sub
  end.

(** ** Decimal digits *)

Definition digits (n : Z) : string :=
  NilZero.string_of_uint (N.to_uint (Z.to_N n)).

Definition digit (n : Z) : string :=
  String (ascii_of_nat (48 + Z.to_nat (n mod 10))) EmptyString.

Definition pad2 (n : Z) : string := digit (n / 10) ++ digit n.
Definition pad3 (n : Z) : string := digit (n / 100) ++ pad2 n.
Definition pad4 (n : Z) : string := digit (n / 1000) ++ pad3 n.
Definition pad6 (n : Z) : string :=
  digit (n / 100000) ++ digit (n / 10000) ++ pad4 n.

(** ** [(ms / 1000).toFixed(2)]

    [ms] is an integer number of milliseconds.  The division is a
    binary64 division, so the quotient is the double nearest to
    [ms / 1000] (ties to even); [toFixed(2)] then takes the integer [k]
    for which [k / 100] is nearest to that double, the larger one on a
    tie, and prints it with two decimals.  The model is exact for
    [|ms| < 2^53], the range in which the subtraction of two clock
    readings is itself exact. *)

(** The double nearest to [a / 1000] for [a > 0], as a mantissa [m] and
    a shift [s]: its value is [m / 2^s]. *)
Definition binary64_div1000 (a : Z) : Z * Z :=
  let l := Z.log2 a in
  let e := if 125 * 2 ^ l <=? 64 * a then l - 9 else l - 10 in
  let s := 52 - e in
  let num := a * 2 ^ s in
  let q := num / 1000 in
  let r := num mod 1000 in
  let m := if (500 <? r) || ((r =? 500) && Z.odd q) then q + 1 else q in
  (m, s).

(** The number of hundredths [toFixed(2)] prints for [a / 1000]. *)
Definition hundredths (a : Z) : Z :=
  if a =? 0 then 0
  else let '(m, s) := binary64_div1000 a in
       (200 * m + 2 ^ s) / 2 ^ (s + 1).

Definition fixed2 (k : Z) : string :=
  digits (k / 100) ++ "." ++ digit (k / 10) ++ digit k.

Definition seconds_toFixed2 (ms : Z) : string :=
  if ms <? 0 then "-" ++ fixed2 (hundredths (- ms))
  else fixed2 (hundredths ms).

(** ** [Date.prototype.toISOString]

    [t] is a time value in milliseconds since the epoch.  The date is
    taken in the proleptic Gregorian calendar, in UTC.  Years from 0 to
    9999 are printed with four digits, the others with a sign and six
    digits. *)

Definition ms_per_day : Z := 86400000.

(** Year, month and day of the day number [day] (days since
    1970-01-01). *)
Definition civil_from_days (day : Z) : Z * Z * Z :=
  let z := day + 719468 in
  let era := z / 146097 in
  let doe := z - era * 146097 in
  let yoe := (doe - doe / 1460 + doe / 36524 - doe / 146096) / 365 in
  let doy := doe - (365 * yoe + yoe / 4 - yoe / 100) in
  let mp := (5 * doy + 2) / 153 in
  let d := doy - (153 * mp + 2) / 5 + 1 in
  let m := if mp <? 10 then mp + 3 else mp - 9 in
  let y := yoe + era * 400 + (if m <=? 2 then 1 else 0) in
  (y, m, d).

Definition iso_year (y : Z) : string :=
  if (0 <=? y) && (y <=? 9999) then pad4 y
  else if y <? 0 then "-" ++ pad6 (- y)
  else "+" ++ pad6 y.

Definition toISOString (t : Z) : string :=
  let day := t / ms_per_day in
  let r := t mod ms_per_day in
  let '(y, m, d) := civil_from_days day in
  iso_year y ++ "-" ++ pad2 m ++ "-" ++ pad2 d ++ "T" ++
  pad2 (r / 3600000) ++ ":" ++ pad2 (r / 60000 mod 60) ++ ":" ++
  pad2 (r / 1000 mod 60) ++ "." ++ pad3 (r mod 1000) ++ "Z".

(** ** Promises

    A promise is pending until the first call of [resolve] or [reject];
    later calls change nothing. *)
Inductive Promise (A : Type) : Type :=
| Pending
| Resolved (v : A)
| Rejected (message : string).

Arguments Pending {A}.
Arguments Resolved {A} v.
Arguments Rejected {A} message.

Definition settled {A} (p : Promise A) : bool :=
  match p with
  | Pending => false
  | _ => true
  end.

(** [settle p q]: [p] after a call that would settle it as [q]. *)
Definition settle {A} (p q : Promise A) : Promise A :=
  match p with
  | Pending => q
  | _ => p
  end.

End Js.

(* ================================================================== *)
(** * [getImapConfig] *)
(* ================================================================== *)

Module Config.

Record TlsOptions : Type := { rejectUnauthorized : bool }.

Record ImapConfig : Type := {
  user : string;
  password : string;
  host : string;
  port : Z;
  tls : bool;
  tlsOptions : TlsOptions;
  authTimeout : Z;
  connTimeout : Z
}.

(** The three entries of [configs] differ in the host only. *)
Definition entry (username pass hostname : string) : ImapConfig :=
  {| user := username;
     password := pass;
     host := hostname;
     port := 993;
     tls := true;
     tlsOptions := {| rejectUnauthorized := false |};
     authTimeout := 15000;
     connTimeout := 15000 |}.

(** The object literal [configs]: its own properties, in source
    order. *)
Definition configs (username pass : string) : list (string * ImapConfig) :=
  [ ("gmail", entry username pass "imap.gmail.com");
    ("outlook", entry username pass "outlook.office365.com");
    ("yahoo", entry username pass "imap.mail.yahoo.com") ].

(** [configs] is written as an object literal, so its prototype is
    [Object.prototype], whose property names are these. *)
Definition object_prototype : list string :=
  [ "constructor"; "__defineGetter__"; "__defineSetter__";
    "hasOwnProperty"; "__lookupGetter__"; "__lookupSetter__";
    "isPrototypeOf"; "propertyIsEnumerable"; "toString"; "valueOf";
    "__proto__"; "toLocaleString" ].

(** What the property access [configs[key]] evaluates to: an own
    property, a member inherited from [Object.prototype] (a function, or
    the prototype object itself for [__proto__]), or [undefined]. *)
Inductive Property : Type :=
| Own (c : ImapConfig)
| Inherited (name : string)
| Undefined.

Fixpoint own_property (o : list (string * ImapConfig)) (key : string)
  : option ImapConfig :=
  match o with
  | [] => None
  | (k, c) :: r => if String.eqb k key then Some c else own_property r key
  end.

Definition get (o : list (string * ImapConfig)) (key : string) : Property :=
  match own_property o key with
  | Some c => Own c
  | None =>
      if existsb (String.eqb key) object_prototype then Inherited key
      else Undefined
  end.

Definition getImapConfig (provider username pass : string) : Property :=
  get (configs username pass) (Js.toLowerCase provider).

(** Objects and functions are truthy, [undefined] is not. *)
Definition truthy (p : Property) : bool :=
  match p with
  | Undefined => false
  | _ => true
  end.

End Config.

(* ================================================================== *)
(** * Messages *)
(* ================================================================== *)

(** What [simpleParser] hands to its callback.  A field the message lacks
    is [undefined], or [false] for [html]: a falsy value in either case
    ([None]).  [from] and [to] are address objects, of which the program
    reads the [text] property only; the array the parser builds for a
    repeated header is outside this record.  [date] is a valid date,
    given by its time value. *)
Module Parsed.
Record Address : Type := { text : string }.

Record t : Type := {
  subject : option string;
  from : option Address;
  to : option Address;
  date : option Z;
  html : option string;
  text_part : option string
}.
End Parsed.

(** The object stored in [foundEmail]. *)
Module Email.
Record t : Type := {
  subject : string;
  from : string;
  to : string;
  date : string;
  html : string;
  text : string
}.
End Email.

Module Materializer.

(** The template literal of the plain-text fallback, before and after
    the interpolated [parsed.text]. *)
Definition wrapper_prefix : string :=
  "<!DOCTYPE html>" ++ Js.newline ++
  "<html>" ++ Js.newline ++
  "<head><meta charset=" ++ Js.dquote ++ "UTF-8" ++ Js.dquote ++ "></head>"
    ++ Js.newline ++
  "<body style=" ++ Js.dquote ++
    "font-family: Arial, sans-serif; padding: 20px; line-height: 1.6;" ++
    Js.dquote ++ ">" ++ Js.newline ++
  "<pre style=" ++ Js.dquote ++ "white-space: pre-wrap;" ++ Js.dquote ++ ">".

Definition wrapper_suffix : string :=
  "</pre>" ++ Js.newline ++ "</body>" ++ Js.newline ++ "</html>".

Definition wrap (text : string) : string :=
  wrapper_prefix ++ text ++ wrapper_suffix.

(** [let htmlContent = parsed.html || '';
     if (!htmlContent && parsed.text) htmlContent = `...`;] *)
Definition htmlContent (parsed : Parsed.t) : string :=
  let native := Js.or_empty (Parsed.html parsed) in
  if negb (Js.truthy_string native) && Js.truthy (Parsed.text_part parsed)
  then wrap (Js.or_empty (Parsed.text_part parsed))
  else native.

Definition address_text (a : option Parsed.Address) : string :=
  match a with
  | Some addr => Parsed.text addr
  | None => EmptyString
  end.

(** [parsed.date ? parsed.date.toISOString() : new Date().toISOString()],
    where [now] is the clock when the parser's callback runs. *)
Definition date_field (now : Z) (parsed : Parsed.t) : string :=
  match Parsed.date parsed with
  | Some d => Js.toISOString d
  | None => Js.toISOString now
  end.

(** The object literal assigned to [foundEmail]. *)
Definition materialize (now : Z) (parsed : Parsed.t) : Email.t :=
  {| Email.subject := Js.or_empty (Parsed.subject parsed);
     Email.from := address_text (Parsed.from parsed);
     Email.to := address_text (Parsed.to parsed);
     Email.date := date_field now parsed;
     Email.html := htmlContent parsed;
     Email.text := Js.or_empty (Parsed.text_part parsed) |}.

End Materializer.

(* ================================================================== *)
(** * [fetchEmailBySubjectOptimized] *)
(* ================================================================== *)

(** The function builds one promise around an IMAP connection and
    registers callbacks on it.  Nothing happens between callbacks, so the
    session is a transition system: its state is what the callbacks close
    over, its events are the invocations of the callbacks by the IMAP
    client, the parser and the timer, and a transition yields the calls
    made on the connection. *)
Module Session.

(** Calls on the IMAP connection. *)
Inductive Criterion : Type :=
| ALL
| SUBJECT (text : string).

Inductive Call : Type :=
| CallConnect
| CallOpenBox (name : string) (readOnly : bool)
| CallSearch (criteria : list Criterion)
| CallFetch (uid : Z) (bodies : string) (markSeen : bool)
| CallEnd.

(** The first argument of a node-style callback is an error or null. *)
Inductive Result (A : Type) : Type :=
| Err (message : string)
| Ok (v : A).

Arguments Err {A} message.
Arguments Ok {A} v.

Inductive Event : Type :=
| Ready                               (* imap.once('ready') *)
| ImapError (message : string)        (* imap.once('error') *)
| ConnectionEnd                       (* imap.once('end') *)
| BoxOpened (r : Result Z)            (* callback of openBox: box.messages.total *)
| SearchDone (r : Result (list Z))    (* callback of search *)
| ParserDone (r : Result Parsed.t)    (* callback of simpleParser *)
| FetchError (message : string)       (* f.once('error') *)
| Timer.                              (* the callback of setTimeout(..., 85000) *)

Definition timeout_ms : Z := 85000.

Record State : Type := {
  imapConfig : Config.Property;
  searchSubject : string;
  foundEmail : option Email.t;
  timeout : option Z;                 (* due time of the timer while it is set *)
  promise : Js.Promise (option Email.t);
  once_ready : bool;                  (* the once-handlers still registered *)
  once_error : bool;
  once_end : bool
}.

Definition with_foundEmail (e : option Email.t) (s : State) : State :=
  {| imapConfig := imapConfig s; searchSubject := searchSubject s;
     foundEmail := e; timeout := timeout s; promise := promise s;
     once_ready := once_ready s; once_error := once_error s;
     once_end := once_end s |}.

Definition clearTimeout (s : State) : State :=
  {| imapConfig := imapConfig s; searchSubject := searchSubject s;
     foundEmail := foundEmail s; timeout := None; promise := promise s;
     once_ready := once_ready s; once_error := once_error s;
     once_end := once_end s |}.

Definition with_promise (p : Js.Promise (option Email.t)) (s : State) : State :=
  {| imapConfig := imapConfig s; searchSubject := searchSubject s;
     foundEmail := foundEmail s; timeout := timeout s; promise := p;
     once_ready := once_ready s; once_error := once_error s;
     once_end := once_end s |}.

Definition with_once (r e n : bool) (s : State) : State :=
  {| imapConfig := imapConfig s; searchSubject := searchSubject s;
     foundEmail := foundEmail s; timeout := timeout s; promise := promise s;
     once_ready := r; once_error := e; once_end := n |}.

Definition resolve (v : option Email.t) (s : State) : State :=
  with_promise (Js.settle (promise s) (Js.Resolved v)) s.

Definition reject (message : string) (s : State) : State :=
  with_promise (Js.settle (promise s) (Js.Rejected message)) s.

(** [results[results.length - 1]] of a non-empty array. *)
Definition targetUid (results : list Z) : Z := last results 0.

Definition login_failed : string :=
  "LOGIN failed - Invalid credentials or App Password required".

(** The body of the promise: the state after the synchronous part, and
    the call [imap.connect()]. *)
Definition fetchEmailBySubjectOptimized (now : Z) (config : Config.Property)
  (subject : string) : State * list Call :=
  ({| imapConfig := config; searchSubject := subject;
      foundEmail := None; timeout := Some (now + timeout_ms);
      promise := Js.Pending;
      once_ready := true; once_error := true; once_end := true |},
   [CallConnect]).

(** One callback, run at clock [now]. *)
Definition step (now : Z) (ev : Event) (s : State) : State * list Call :=
  match ev with
  | Ready =>
      if once_ready s
      then (with_once false (once_error s) (once_end s) s,
            [CallOpenBox "INBOX" true])
      else (s, [])
  | BoxOpened (Err m) => (reject m (clearTimeout s), [])
  | BoxOpened (Ok total) =>
      if total =? 0
      then (resolve None (clearTimeout s), [CallEnd])
      else (s, [CallSearch [ALL; SUBJECT (searchSubject s)]])
  | SearchDone (Err m) => (reject m (clearTimeout s), [])
  | SearchDone (Ok results) =>
      if Z.of_nat (length results) =? 0
      then (resolve None (clearTimeout s), [CallEnd])
      else (s, [CallFetch (targetUid results) EmptyString false])
  | ParserDone (Err m) => (reject m (clearTimeout s), [])
  | ParserDone (Ok parsed) =>
      (clearTimeout
         (with_foundEmail (Some (Materializer.materialize now parsed)) s),
       [CallEnd])
  | FetchError m => (reject m (clearTimeout s), [])
  | ImapError m =>
      if once_error s
      then
        let s' := clearTimeout (with_once (once_ready s) false (once_end s) s) in
        if Js.includes m "Invalid credentials" || Js.includes m "LOGIN failed"
        then (reject login_failed s', [])
        else (reject m s', [])
      else (s, [])
  | ConnectionEnd =>
      if once_end s
      then
        let s' := clearTimeout (with_once (once_ready s) (once_error s) false s) in
        (resolve (foundEmail s') s', [])
      else (s, [])
  | Timer =>
      match timeout s with
      | Some due =>
          if due <=? now
          then
            let s' := clearTimeout s in   (* the timer has fired *)
            match foundEmail s' with
            | None => (reject "Search timeout" s', [CallEnd])
            | Some _ => (s', [])
            end
          else (s, [])
      | None => (s, [])
      end
  end.

End Session.

(* ================================================================== *)
(** * The handler of [POST /fetch-email] *)
(* ================================================================== *)

Module Route.

(** [req.body]: the four fields the handler destructures.  A field is a
    string or is missing.  Fields of another JSON type are outside this
    record; of those, a truthy provider that is no string makes
    [provider.toLowerCase()] throw, which the [catch] block answers 500
    before any session starts. *)
Record Body : Type := {
  provider : option string;
  username : option string;
  password : option string;
  subject : option string
}.

(** The JSON documents the handler sends. *)
Inductive Payload : Type :=
| Success (data : Email.t) (meta_duration_seconds : string)
| Failure (error : string) (message help duration_seconds : option string).

Record Response : Type := { status : Z; payload : Payload }.

(** The elapsed duration a response carries, if it carries one. *)
Definition duration_of (r : Response) : option string :=
  match payload r with
  | Success _ d => Some d
  | Failure _ _ _ d => d
  end.

Definition race_timeout_ms : Z := 90000.

(** The state of one request that has passed validation. *)
Record Handler : Type := {
  startTime : Z;
  req_provider : string;              (* req.body.provider *)
  req_subject : string;               (* subject *)
  session : Session.State;
  race : Js.Promise (option Email.t); (* the promise of Promise.race *)
  race_timer : option Z;              (* due time of the 90000 ms timer while set *)
  calls : list Session.Call;          (* calls made on the connection so far *)
  responses : list Response           (* responses sent so far *)
}.

Definition missing_fields : Response :=
  {| status := 400;
     payload := Failure "Missing required fields" None None None |}.

Definition invalid_provider : Response :=
  {| status := 400; payload := Failure "Invalid provider" None None None |}.

(** The [help] string of the 401 response. *)
Definition help_text (prov : string) : string :=
  "Check your credentials. " ++
  (if String.eqb prov "gmail"
   then "Gmail requires App Password: https://myaccount.google.com/apppasswords"
   else if String.eqb prov "outlook"
   then "Outlook requires App Password: https://account.microsoft.com/security"
   else EmptyString).

(** The five responses the handler sends after the race has settled. *)
Definition found (e : Email.t) (duration : string) : Response :=
  {| status := 200; payload := Success e duration |}.

Definition not_found (subj : string) : Response :=
  {| status := 404;
     payload :=
       Failure "Email not found"
         (Some ("No email with subject containing: " ++ Js.dquote ++
                subj ++ Js.dquote))
         None None |}.

Definition request_timeout (duration : string) : Response :=
  {| status := 408;
     payload :=
       Failure "Request timeout"
         (Some "Email search took too long. Try a more specific subject.")
         None (Some duration) |}.

Definition authentication_failed (help : string) : Response :=
  {| status := 401;
     payload := Failure "Authentication failed" None (Some help) None |}.

Definition server_error (message : string) : Response :=
  {| status := 500; payload := Failure message None None None |}.

(** The code after [await], when the race is fulfilled with [email]. *)
Definition on_fulfilled (h : Handler) (now : Z) (email : option Email.t)
  : Response :=
  let duration := Js.seconds_toFixed2 (now - startTime h) in
  match email with
  | Some e => found e duration
  | None => not_found (req_subject h)
  end.

(** The [catch] block, when the race is rejected with [message]. *)
Definition on_rejected (h : Handler) (now : Z) (message : string) : Response :=
  let duration := Js.seconds_toFixed2 (now - startTime h) in
  if Js.includes message "timeout"
  then request_timeout duration
  else if Js.includes message "LOGIN failed" ||
          Js.includes message "Invalid credentials"
  then authentication_failed (help_text (req_provider h))
  else server_error message.

Definition respond (h : Handler) (now : Z)
  (outcome : Js.Promise (option Email.t)) : list Response :=
  match outcome with
  | Js.Pending => []
  | Js.Resolved email => [on_fulfilled h now email]
  | Js.Rejected message => [on_rejected h now message]
  end.

(** What the request does before it awaits: either it answers at once, or
    it starts a session and the race timer. *)
Inductive Started : Type :=
| Replied (r : Response)
| Launched (h : Handler).

Definition fetch_email (now : Z) (body : Body) : Started :=
  match provider body, username body, password body, subject body with
  | Some prov, Some usr, Some pwd, Some subj =>
      if negb (Js.truthy_string prov) || negb (Js.truthy_string usr) ||
         negb (Js.truthy_string pwd) || negb (Js.truthy_string subj)
      then Replied missing_fields
      else
        let imapConfig := Config.getImapConfig prov usr pwd in
        if negb (Config.truthy imapConfig)
        then Replied invalid_provider
        else
          let '(s, cs) :=
            Session.fetchEmailBySubjectOptimized now imapConfig subj in
          Launched
            {| startTime := now; req_provider := prov; req_subject := subj;
               session := s; race := Js.Pending;
               race_timer := Some (now + race_timeout_ms);
               calls := cs; responses := [] |}
  | _, _, _, _ => Replied missing_fields
  end.

(** The callbacks that can run while the handler awaits. *)
Inductive Event : Type :=
| Imap (e : Session.Event)
| RaceTimer.                          (* the callback of setTimeout(..., 90000) *)

(** The race settles with the first of its two promises to settle, and
    the code after [await] then runs, once. *)
Definition settle_race (now : Z) (outcome : Js.Promise (option Email.t))
  (h : Handler) : Handler :=
  match race h with
  | Js.Pending =>
      {| startTime := startTime h; req_provider := req_provider h;
         req_subject := req_subject h; session := session h;
         race := outcome; race_timer := race_timer h; calls := calls h;
         responses := responses h ++ respond h now outcome |}
  | _ => h
  end.

Definition step (now : Z) (ev : Event) (h : Handler) : Handler :=
  match ev with
  | Imap e =>
      let '(s, cs) := Session.step now e (session h) in
      settle_race now (Session.promise s)
        {| startTime := startTime h; req_provider := req_provider h;
           req_subject := req_subject h; session := s;
           race := race h; race_timer := race_timer h;
           calls := calls h ++ cs; responses := responses h |}
  | RaceTimer =>
      match race_timer h with
      | Some due =>
          if due <=? now
          then
            settle_race now (Js.Rejected "Search timeout - taking too long")
              {| startTime := startTime h; req_provider := req_provider h;
                 req_subject := req_subject h; session := session h;
                 race := race h; race_timer := None;
                 calls := calls h; responses := responses h |}
          else h
      | None => h
      end
  end.

(** A schedule: the callbacks that run, each with the clock it reads. *)
Fixpoint run (schedule : list (Z * Event)) (h : Handler) : Handler :=
  match schedule with
  | [] => h
  | (now, ev) :: rest => run rest (step now ev h)
  end.

(** The calls one callback makes on the connection. *)
Definition calls_of (now : Z) (ev : Session.Event) (h : Handler)
  : list Session.Call :=
  snd (Session.step now ev (session h)).

End Route.

(* ================================================================== *)
(** * The root endpoint *)
(* ================================================================== *)

Module Root.

(** The [important] table of the document the root endpoint returns. *)
Definition important : list (string * string) :=
  [ ("gmail",
     "Requires App Password: https://myaccount.google.com/apppasswords");
    ("outlook",
     "Requires App Password: https://account.microsoft.com/security");
    ("yahoo",
     "Requires App Password: https://login.yahoo.com/account/security") ].

End Root.

(* ================================================================== *)
(** * Predicates and scenarios *)
(* ================================================================== *)

Import Route.

(** ** Invariants *)

(** What holds of the state of a session started at clock [start]: while
    the promise is pending the [end] handler is still registered, and
    while the timer is set no message has been recorded and the promise
    is pending. *)
Record SessionInv (start : Z) (s : Session.State) : Prop := {
  sinv_end :
    Session.promise s = Js.Pending -> Session.once_end s = true;
  sinv_error :
    Session.promise s = Js.Pending -> Session.once_error s = true;
  sinv_timer :
    forall due, Session.timeout s = Some due ->
    due = start + Session.timeout_ms /\
    Session.foundEmail s = None /\
    Session.promise s = Js.Pending
}.

(** What holds of a request after any schedule: while the race is pending
    no response has been sent, the promise of the session is pending and
    the race timer is set; once the race has settled exactly one response
    has been sent. *)
Record Inv (h : Handler) : Prop := {
  inv_pending :
    race h = Js.Pending ->
    responses h = [] /\
    Session.promise (session h) = Js.Pending /\
    race_timer h = Some (startTime h + race_timeout_ms);
  inv_settled :
    race h <> Js.Pending -> exists r, responses h = [r];
  inv_session : SessionInv (startTime h) (session h)
}.

(** ** The shape of a duration *)

Definition is_digit (c : ascii) : bool :=
  ((48 <=? nat_of_ascii c) && (nat_of_ascii c <=? 57))%nat.

Fixpoint all_digits (s : string) : bool :=
  match s with
  | EmptyString => true
  | String c r => is_digit c && all_digits r
  end.

(** An optional minus sign, at least one digit, a point, two digits. *)
Definition two_decimals (s : string) : Prop :=
  exists sign whole a b,
    s = sign ++ whole ++ "." ++ String a (String b EmptyString) /\
    (sign = EmptyString \/ sign = "-") /\
    whole <> EmptyString /\ all_digits whole = true /\
    is_digit a = true /\ is_digit b = true.

(** ** Strings without capital letters *)

Definition is_upper (c : ascii) : bool :=
  ((65 <=? nat_of_ascii c) && (nat_of_ascii c <=? 90))%nat.

Fixpoint no_upper (s : string) : bool :=
  match s with
  | EmptyString => true
  | String c r => negb (is_upper c) && no_upper r
  end.

(** The provider names, in lower case, that pass [if (!imapConfig)]. *)
Definition accepted_names : list string :=
  ["gmail"; "outlook"; "yahoo"; "constructor"; "__proto__"].

(** ** Scenarios *)

(** A request for the scenarios below. *)
Definition sample_body (prov : string) : Body :=
  {| provider := Some prov; username := Some "user@example.com";
     password := Some "app-password"; subject := Some "Invoice #2024" |}.

(** The handler a valid sample request starts, at clock 1000. *)
Definition sample_handler (prov : string) : Handler :=
  {| startTime := 1000; req_provider := prov; req_subject := "Invoice #2024";
     session :=
       fst (Session.fetchEmailBySubjectOptimized 1000
              (Config.getImapConfig prov "user@example.com" "app-password")
              "Invoice #2024");
     race := Js.Pending; race_timer := Some 91000;
     calls := [Session.CallConnect]; responses := [] |}.

(** The session up to the fetch of the selected message. *)
Definition sample_progress : list (Z * Event) :=
  [ (1100, Imap Session.Ready);
    (1200, Imap (Session.BoxOpened (Session.Ok 7)));
    (1300, Imap (Session.SearchDone (Session.Ok [5; 12; 41]))) ].

(** The connection ends after the mailbox was opened: the server closes
    it while the search is outstanding. *)
Definition connection_lost : list (Z * Event) :=
  [ (1100, Imap Session.Ready);
    (1200, Imap (Session.BoxOpened (Session.Ok 3)));
    (1300, Imap Session.ConnectionEnd) ].

(** A request without a provider. *)
Definition no_provider : Body :=
  {| provider := None; username := Some "user@example.com";
     password := Some "app-password"; subject := Some "Invoice #2024" |}.

(** Parsed messages: one with a plain-text part only, one without a date,
    one without any body. *)
Definition text_only (text : string) : Parsed.t :=
  {| Parsed.subject := Some "Invoice #2024";
     Parsed.from := Some {| Parsed.text := "Billing <billing@example.com>" |};
     Parsed.to := Some {| Parsed.text := "user@example.com" |};
     Parsed.date := Some 1700000000000;
     Parsed.html := None;
     Parsed.text_part := Some text |}.

Definition undated : Parsed.t :=
  {| Parsed.subject := Some "Invoice #2024";
     Parsed.from := Some {| Parsed.text := "Billing <billing@example.com>" |};
     Parsed.to := None;
     Parsed.date := None;
     Parsed.html := Some "<p>Total: 12 EUR</p>";
     Parsed.text_part := None |}.

Definition headers_only : Parsed.t :=
  {| Parsed.subject := Some "Invoice #2024";
     Parsed.from := None; Parsed.to := None;
     Parsed.date := Some 1700000000000;
     Parsed.html := None; Parsed.text_part := None |}.

(** ** Calls and schedules *)

Definition is_connect (c : Session.Call) : bool :=
  match c with
  | Session.CallConnect => true
  | _ => false
  end.

Definition is_openBox (c : Session.Call) : bool :=
  match c with
  | Session.CallOpenBox _ _ => true
  | _ => false
  end.

(** The calls the session makes for a request with subject [subj]: it
    connects, opens [INBOX] read-only, searches all messages for the
    subject, fetches whole messages without marking them seen, and ends
    the connection. *)
Definition expected_call (subj : string) (c : Session.Call) : Prop :=
  c = Session.CallConnect \/
  c = Session.CallOpenBox "INBOX" true \/
  c = Session.CallSearch [Session.ALL; Session.SUBJECT subj] \/
  (exists uid, c = Session.CallFetch uid EmptyString false) \/
  c = Session.CallEnd.

(** What holds of the calls of a request with subject [subj]. *)
Record CallsInv (subj : string) (h : Handler) : Prop := {
  cinv_subject : Session.searchSubject (session h) = subj;
  cinv_expected : Forall (expected_call subj) (calls h);
  cinv_connect :
    exists rest, calls h = Session.CallConnect :: rest /\
                 forallb (fun c => negb (is_connect c)) rest = true;
  cinv_openBox :
    (length (filter is_openBox (calls h)) +
     (if Session.once_ready (session h) then 1 else 0) = 1)%nat
}.

(** Every message the request holds satisfies [S]: the recorded one, the
    one the session resolved with, and the one of a 200 response. *)
Record Provenance (S : Email.t -> Prop) (h : Handler) : Prop := {
  prov_found : forall e, Session.foundEmail (session h) = Some e -> S e;
  prov_promise :
    forall e, Session.promise (session h) = Js.Resolved (Some e) -> S e;
  prov_response :
    forall r, In r (responses h) -> status r = 200 ->
    exists e d, r = found e d /\ S e
}.

(** The message recorded after a schedule: the one of the last successful
    callback of the parser, or [acc] when there is none. *)
Fixpoint last_parsed (schedule : list (Z * Event)) (acc : option Email.t)
  : option Email.t :=
  match schedule with
  | [] => acc
  | (t, Imap (Session.ParserDone (Session.Ok parsed))) :: rest =>
      last_parsed rest (Some (Materializer.materialize t parsed))
  | _ :: rest => last_parsed rest acc
  end.

(** [e] is the normalisation of a message the parser delivered during
    the schedule, at the clock of that callback. *)
Definition from_schedule (schedule : list (Z * Event)) (e : Email.t) : Prop :=
  exists t parsed,
    In (t, Imap (Session.ParserDone (Session.Ok parsed))) schedule /\
    e = Materializer.materialize t parsed.

(** The four callbacks that pass an error [m] straight to [reject]. *)
Definition callback_errors (m : string) : list Session.Event :=
  [ Session.BoxOpened (Session.Err m); Session.SearchDone (Session.Err m);
    Session.ParserDone (Session.Err m); Session.FetchError m ].

(** The session from [ready] to [end] when every stage succeeds. *)
Definition happy_path (t1 t2 t3 t4 t5 total : Z) (results : list Z)
  (parsed : Parsed.t) : list (Z * Event) :=
  [ (t1, Imap Session.Ready);
    (t2, Imap (Session.BoxOpened (Session.Ok total)));
    (t3, Imap (Session.SearchDone (Session.Ok results)));
    (t4, Imap (Session.ParserDone (Session.Ok parsed)));
    (t5, Imap Session.ConnectionEnd) ].

(** A parsed message with every field present. *)
Definition complete (s f t : string) (d : Z) (h x : string) : Parsed.t :=
  {| Parsed.subject := Some s;
     Parsed.from := Some {| Parsed.text := f |};
     Parsed.to := Some {| Parsed.text := t |};
     Parsed.date := Some d;
     Parsed.html := Some h;
     Parsed.text_part := Some x |}.

(* ================================================================== *)
(** * Properties *)
(* ================================================================== *)

(** ** Strings *)

Lemma prefix_app (a b : string) : String.prefix a (a ++ b) = true.
Proof.
  induction a as [|c a IH]; simpl.
  - now destruct b.
  - destruct (ascii_dec c c) as [_|n]; [exact IH | now elim n].
Qed.

Lemma includes_unfold (s sub : string) :
  Js.includes s sub =
  String.prefix sub s ||
  match s with
  | EmptyString => false
  | String _ r => Js.includes r sub
  end.
Proof. destruct s; reflexivity. Qed.

Lemma includes_app (a sub b : string) : Js.includes (a ++ sub ++ b) sub = true.
Proof.
  induction a as [|c a IH]; simpl.
  - rewrite includes_unfold, prefix_app. reflexivity.
  - rewrite IH. apply orb_true_r.
Qed.

Lemma prefix_split (a s : string) :
  String.prefix a s = true -> exists b, s = a ++ b.
Proof.
  revert s. induction a as [|c a IH]; intros s H.
  - exists s. reflexivity.
  - destruct s as [|d s]; simpl in H; [discriminate|].
    destruct (ascii_dec c d) as [->|]; [|discriminate].
    destruct (IH _ H) as [b ->]. exists b. reflexivity.
Qed.

Lemma includes_split (s sub : string) :
  Js.includes s sub = true -> exists a b, s = a ++ sub ++ b.
Proof.
  induction s as [|c s IH]; rewrite includes_unfold; intros H.
  - rewrite orb_false_r in H. destruct (prefix_split _ _ H) as [b E].
    exists EmptyString, b. exact E.
  - apply orb_true_iff in H. destruct H as [H|H].
    + destruct (prefix_split _ _ H) as [b E]. exists EmptyString, b. exact E.
    + destruct (IH H) as (a & b & ->). exists (String c a), b. reflexivity.
Qed.

Lemma append_assoc (a b c : string) : (a ++ b) ++ c = a ++ (b ++ c).
Proof. induction a as [|x a IH]; simpl; [reflexivity | now rewrite IH]. Qed.

(** Whatever occurs in a part of a string occurs in the string. *)
Lemma includes_inside (a t b m : string) :
  Js.includes t m = true -> Js.includes (a ++ t ++ b) m = true.
Proof.
  intros H. destruct (includes_split _ _ H) as (x & y & ->).
  replace (a ++ (x ++ m ++ y) ++ b) with ((a ++ x) ++ m ++ (y ++ b)).
  - apply includes_app.
  - now rewrite !append_assoc.
Qed.

(** ** The runtime on known values *)

Example toFixed2_known_values :
  map Js.seconds_toFixed2 [0; 5; 15; 125; 515; 1005; 8575; 85000; -1] =
  ["0.00"; "0.01"; "0.01"; "0.13"; "0.52"; "1.00"; "8.57"; "85.00"; "-0.00"].
Proof. reflexivity. Qed.

Example toISOString_known_values :
  map Js.toISOString
    [0; -1; 951782400000; 1700000000000; 8640000000000000] =
  ["1970-01-01T00:00:00.000Z"; "1969-12-31T23:59:59.999Z";
   "2000-02-29T00:00:00.000Z"; "2023-11-14T22:13:20.000Z";
   "+275760-09-13T00:00:00.000Z"].
Proof. reflexivity. Qed.

Example toLowerCase_known_values :
  map Js.toLowerCase ["GMail"; "OUTLOOK"; "yahoo"; "Constructor"] =
  ["gmail"; "outlook"; "yahoo"; "constructor"].
Proof. reflexivity. Qed.

Example toLowerCase_kelvin_sign :
  Js.toLowerCase ("OUTLOO" ++ Js.kelvin_sign) = "outlook".
Proof. reflexivity. Qed.

(** ** Lower case *)

Lemma lower_ascii_not_upper c : is_upper (Js.lower_ascii c) = false.
Proof. destruct c as [[] [] [] [] [] [] [] []]; reflexivity. Qed.

Lemma toLowerCase_cons c1 r1 :
  Js.toLowerCase (String c1 r1) =
  match r1 with
  | String c2 (String c3 r3) =>
      if Js.is_kelvin c1 c2 c3
      then String "k"%char (Js.toLowerCase r3)
      else String (Js.lower_ascii c1) (Js.toLowerCase r1)
  | _ => String (Js.lower_ascii c1) (Js.toLowerCase r1)
  end.
Proof. reflexivity. Qed.

Lemma toLowerCase_no_upper_bounded n :
  forall s, (String.length s <= n)%nat -> no_upper (Js.toLowerCase s) = true.
Proof.
  induction n as [|n IH]; intros s H.
  - destruct s; [reflexivity | simpl in H; lia].
  - destruct s as [|c1 r1]; [reflexivity|].
    rewrite toLowerCase_cons.
    assert (H1 : no_upper (Js.toLowerCase r1) = true).
    { apply IH. simpl in H. lia. }
    destruct r1 as [|c2 [|c3 r3]].
    + cbn [no_upper]. now rewrite lower_ascii_not_upper, H1.
    + cbn [no_upper]. now rewrite lower_ascii_not_upper, H1.
    + destruct (Js.is_kelvin c1 c2 c3).
      * cbn [no_upper]. rewrite IH; [reflexivity|]. simpl in H. lia.
      * cbn [no_upper]. now rewrite lower_ascii_not_upper, H1.
Qed.

Lemma toLowerCase_no_upper s : no_upper (Js.toLowerCase s) = true.
Proof. apply (toLowerCase_no_upper_bounded (String.length s)). lia. Qed.

(** Of the property names of [Object.prototype], only two can be the
    result of [toLowerCase]. *)
Lemma lowered_prototype_name s :
  In (Js.toLowerCase s) Config.object_prototype ->
  Js.toLowerCase s = "constructor" \/ Js.toLowerCase s = "__proto__".
Proof.
  intros H. pose proof (toLowerCase_no_upper s) as U.
  unfold Config.object_prototype in H. cbn [In] in H.
  repeat match type of H with
  | _ \/ _ => destruct H as [H|H]
  end; try contradiction; rewrite <- H in U |- *; auto; discriminate U.
Qed.

(** ** Invariants of a session *)

Ltac break_match :=
  repeat match goal with
  | |- context [match ?x with _ => _ end] => destruct x eqn:?; simpl in *
  end.

Lemma SessionInv_begin now config subj :
  SessionInv now
    (fst (Session.fetchEmailBySubjectOptimized now config subj)).
Proof.
  constructor; simpl; intros; [reflexivity|reflexivity|].
  injection H as <-. auto.
Qed.

Lemma SessionInv_step start now ev s :
  SessionInv start s -> SessionInv start (fst (Session.step now ev s)).
Proof.
  intros [E E' T]. destruct s as [cfg ss fe tm pm o1 o2 o3]. simpl in *.
  destruct ev as [ |m| |[m|total]|[m|results]|[m|parsed]|m| ];
    simpl; break_match; constructor; simpl; intros; subst;
    try discriminate; auto;
    try (destruct (T _ eq_refl) as (? & ? & ?); congruence);
    try (destruct pm; simpl in *; discriminate).
Qed.

(** A settled promise stays as it is. *)
Lemma session_promise_stable now ev s :
  Session.promise s <> Js.Pending ->
  Session.promise (fst (Session.step now ev s)) = Session.promise s.
Proof.
  intros H. destruct s as [cfg ss fe tm pm o1 o2 o3]. simpl in *.
  destruct ev as [ |m| |[m|total]|[m|results]|[m|parsed]|m| ];
    simpl; break_match; simpl; try reflexivity;
    destruct pm; simpl; congruence.
Qed.

(** ** Invariants of a running request *)

Lemma launched_inversion now body h :
  fetch_email now body = Launched h ->
  exists prov usr pwd subj,
    body = {| provider := Some prov; username := Some usr;
              password := Some pwd; subject := Some subj |} /\
    Js.truthy_string prov = true /\ Js.truthy_string usr = true /\
    Js.truthy_string pwd = true /\ Js.truthy_string subj = true /\
    Config.truthy (Config.getImapConfig prov usr pwd) = true /\
    h = {| startTime := now; req_provider := prov; req_subject := subj;
           session := fst (Session.fetchEmailBySubjectOptimized now
                             (Config.getImapConfig prov usr pwd) subj);
           race := Js.Pending;
           race_timer := Some (now + race_timeout_ms);
           calls := [Session.CallConnect]; responses := [] |}.
Proof.
  unfold fetch_email. destruct body as [[p|] [u|] [w|] [s|]]; simpl;
    try discriminate.
  destruct (Js.truthy_string p) eqn:Ep, (Js.truthy_string u) eqn:Eu,
    (Js.truthy_string w) eqn:Ew, (Js.truthy_string s) eqn:Es;
    simpl; try discriminate.
  destruct (Config.truthy (Config.getImapConfig p u w)) eqn:E; simpl;
    try discriminate.
  intros [= <-]. exists p, u, w, s. repeat split; assumption.
Qed.

Lemma Inv_launch now body h : fetch_email now body = Launched h -> Inv h.
Proof.
  intros H.
  destruct (launched_inversion _ _ _ H)
    as (p & u & w & s & _ & _ & _ & _ & _ & _ & ->).
  constructor; simpl; intros; try congruence; auto.
  apply SessionInv_begin.
Qed.

(** [step] on a callback of the session, without the pair. *)
Lemma step_imap now e h :
  step now (Imap e) h =
  settle_race now (Session.promise (fst (Session.step now e (session h))))
    {| startTime := startTime h; req_provider := req_provider h;
       req_subject := req_subject h;
       session := fst (Session.step now e (session h));
       race := race h; race_timer := race_timer h;
       calls := calls h ++ snd (Session.step now e (session h));
       responses := responses h |}.
Proof. unfold step. destruct (Session.step now e (session h)). reflexivity. Qed.

Lemma respond_settled h now (outcome : Js.Promise (option Email.t)) :
  outcome <> Js.Pending -> exists r, respond h now outcome = [r].
Proof. destruct outcome; simpl; intros H; [congruence | eauto | eauto]. Qed.

Lemma Inv_step now ev h : Inv h -> Inv (step now ev h).
Proof.
  intros H. destruct ev as [e|].
  - destruct H as [P S I]. rewrite step_imap. unfold settle_race; simpl.
    destruct (race h) eqn:R; simpl.
    + destruct (P eq_refl) as (Hr & Hp & Ht).
      constructor; simpl.
      * intros Hs. rewrite Hs, Hr. auto.
      * intros Hs. rewrite Hr. simpl. now apply respond_settled.
      * now apply SessionInv_step.
    + constructor; simpl; rewrite ?R; try congruence.
      * intros _. apply S. congruence.
      * now apply SessionInv_step.
    + constructor; simpl; rewrite ?R; try congruence.
      * intros _. apply S. congruence.
      * now apply SessionInv_step.
  - unfold step. destruct (race_timer h) as [due|] eqn:Rt; [|exact H].
    destruct (due <=? now) eqn:D; [|exact H].
    destruct H as [P S I]. unfold settle_race; simpl.
    destruct (race h) eqn:R; simpl.
    + destruct (P eq_refl) as (Hr & Hp & Ht).
      constructor; simpl; try congruence; auto.
      intros _. rewrite Hr. simpl. eauto.
    + constructor; simpl; rewrite ?R; try congruence; auto;
        intros _; apply S; congruence.
    + constructor; simpl; rewrite ?R; try congruence; auto;
        intros _; apply S; congruence.
Qed.

Lemma Inv_run schedule : forall h, Inv h -> Inv (run schedule h).
Proof.
  induction schedule as [|[now ev] rest IH]; simpl; intros h H; [exact H|].
  apply IH, Inv_step, H.
Qed.

Lemma startTime_step now ev h : startTime (step now ev h) = startTime h.
Proof.
  destruct ev as [e|].
  - rewrite step_imap. unfold settle_race; simpl. now destruct (race h).
  - unfold step, settle_race.
    destruct (race_timer h); [|reflexivity].
    destruct (_ <=? _); [|reflexivity]. simpl. now destruct (race h).
Qed.

Lemma startTime_run schedule : forall h, startTime (run schedule h) = startTime h.
Proof.
  induction schedule as [|[now ev] rest IH]; simpl; intros h; [reflexivity|].
  now rewrite IH, startTime_step.
Qed.

Lemma startTime_launch now body h :
  fetch_email now body = Launched h -> startTime h = now.
Proof.
  intros H.
  destruct (launched_inversion _ _ _ H)
    as (p & u & w & s & _ & _ & _ & _ & _ & _ & ->).
  reflexivity.
Qed.



(** ** Selection of the message to fetch *)

Lemma calls_step_imap now e h :
  calls (step now (Imap e) h) = (calls h ++ calls_of now e h)%list.
Proof.
  rewrite step_imap. unfold settle_race, calls_of; simpl.
  now destruct (race h).
Qed.

(** C1. When the search callback delivers a non-empty sequence of
    identifiers, the callback makes exactly one call on the connection:
    the fetch of [targetUid results], which is the last element of the
    sequence in the order the server returned it.  The choice depends on
    the position in the sequence only; no date takes part in it. *)
Theorem search_fetches_last_result :
  forall (now : Z) (h : Handler) (results : list Z),
    results <> [] ->
    (exists earlier, results = (earlier ++ [Session.targetUid results])%list) /\
    calls (step now (Imap (Session.SearchDone (Session.Ok results))) h) =
      (calls h ++
       [Session.CallFetch (Session.targetUid results) EmptyString false])%list.
Proof.
  intros now h results Hne. split.
  - exists (removelast results). now apply app_removelast_last.
  - rewrite calls_step_imap. unfold calls_of. simpl.
    destruct results as [|uid rest]; [congruence|]. reflexivity.
Qed.

(** The scenario of the specification: for the result [5, 12, 41] the
    message 41 is fetched. *)
Lemma search_fetches_last_result_witness :
  [5; 12; 41] <> [] /\
  calls (step 1300 (Imap (Session.SearchDone (Session.Ok [5; 12; 41])))
           (sample_handler "gmail")) =
  [Session.CallConnect; Session.CallFetch 41 EmptyString false].
Proof.
  split; [discriminate|].
  exact (proj2 (search_fetches_last_result 1300 (sample_handler "gmail")
                  [5; 12; 41] ltac:(discriminate))).
Defined.

(** ** The HTML body *)

(** The plain-text fallback: without a usable native HTML part, a
    non-empty text is wrapped as it is. *)
Lemma htmlContent_synthesised parsed text :
  Js.truthy (Parsed.html parsed) = false ->
  Parsed.text_part parsed = Some text ->
  text <> EmptyString ->
  Materializer.htmlContent parsed =
  Materializer.wrapper_prefix ++ text ++ Materializer.wrapper_suffix.
Proof.
  intros Hh Ht Hne. unfold Materializer.htmlContent. rewrite Ht.
  destruct (Parsed.html parsed) as [[|c r]|]; simpl in *; try discriminate;
    destruct text; try congruence; reflexivity.
Qed.

(** C4, as the code has it.  The HTML body of the normalised message is
    the native HTML part when that part is present and not empty;
    otherwise, when the plain-text part is present and not empty, it is
    the fixed wrapper around exactly that text; otherwise it is the empty
    string. *)
Theorem html_body_cases :
  forall (now : Z) (parsed : Parsed.t),
    let e := Materializer.materialize now parsed in
    (forall native, Parsed.html parsed = Some native ->
       native <> EmptyString -> Email.html e = native) /\
    (Js.truthy (Parsed.html parsed) = false ->
     forall text, Parsed.text_part parsed = Some text ->
       text <> EmptyString ->
       Email.html e =
       Materializer.wrapper_prefix ++ text ++ Materializer.wrapper_suffix) /\
    (Js.truthy (Parsed.html parsed) = false ->
     Js.truthy (Parsed.text_part parsed) = false ->
     Email.html e = EmptyString).
Proof.
  intros now parsed e. subst e. unfold Materializer.materialize; simpl.
  split; [|split].
  - intros native H Hne. unfold Materializer.htmlContent. rewrite H. simpl.
    destruct native; [congruence|]. reflexivity.
  - intros Hh text Ht Hne. now apply htmlContent_synthesised.
  - intros Hh Ht. unfold Materializer.htmlContent.
    destruct (Parsed.html parsed) as [[|c r]|]; simpl in *; try discriminate;
      rewrite Ht; reflexivity.
Qed.

Lemma html_body_cases_witness :
  Email.html (Materializer.materialize 0 (text_only "Total: 12 EUR")) =
  Materializer.wrapper_prefix ++ "Total: 12 EUR" ++ Materializer.wrapper_suffix.
Proof.
  apply (proj1 (proj2 (html_body_cases 0 (text_only "Total: 12 EUR")))).
  - reflexivity.
  - reflexivity.
  - discriminate.
Defined.

(** C4, as stated, fails on a message whose plain-text part is present
    but empty: the part exists, yet the body is the empty string and not
    the wrapper around the (empty) text. *)
Lemma html_body_empty_text_part :
  Parsed.html (text_only EmptyString) = None /\
  Parsed.text_part (text_only EmptyString) = Some EmptyString /\
  Email.html (Materializer.materialize 0 (text_only EmptyString)) = EmptyString /\
  Email.html (Materializer.materialize 0 (text_only EmptyString)) <>
  Materializer.wrap EmptyString.
Proof. repeat split. discriminate. Qed.

(** C10. When the HTML body is synthesised from the plain-text part, the
    text stands between the two fixed halves of the template exactly as
    the parser delivered it: nothing is escaped.  So every piece of
    markup the text contains, a closing [pre] tag for one, is part of the
    produced document. *)
Theorem text_is_not_escaped :
  forall (now : Z) (parsed : Parsed.t) (text : string),
    Js.truthy (Parsed.html parsed) = false ->
    Parsed.text_part parsed = Some text ->
    text <> EmptyString ->
    let body := Email.html (Materializer.materialize now parsed) in
    body = Materializer.wrapper_prefix ++ text ++ Materializer.wrapper_suffix /\
    Js.includes body text = true /\
    (forall markup, Js.includes text markup = true ->
                    Js.includes body markup = true).
Proof.
  intros now parsed text Hh Ht Hne body.
  assert (E : body =
              Materializer.wrapper_prefix ++ text ++ Materializer.wrapper_suffix).
  { exact (htmlContent_synthesised parsed text Hh Ht Hne). }
  rewrite E. split; [reflexivity|]. split.
  - apply includes_app.
  - intros markup. apply includes_inside.
Qed.

Lemma text_is_not_escaped_witness :
  Js.includes
    (Email.html
       (Materializer.materialize 0
          (text_only "a < b & c</pre><h1>injected</h1><pre>")))
    "</pre><h1>injected</h1>" = true.
Proof.
  apply (proj2 (proj2 (text_is_not_escaped 0
           (text_only "a < b & c</pre><h1>injected</h1><pre>")
           "a < b & c</pre><h1>injected</h1><pre>"
           eq_refl eq_refl ltac:(discriminate)))).
  reflexivity.
Defined.

(** ** From the parsed message to the response *)

Lemma race_pending_of_no_response h :
  Inv h -> responses h = [] -> race h = Js.Pending.
Proof.
  intros [P S I] Hr. destruct (race h) eqn:R; [reflexivity| |];
    destruct S as [r Hs]; congruence.
Qed.

(** When the parser delivers a message while the request is unanswered
    and the connection then ends, the request is answered with that
    message. *)
Lemma found_after_parse h t1 t2 parsed :
  Inv h -> responses h = [] ->
  responses (run [(t1, Imap (Session.ParserDone (Session.Ok parsed)));
                  (t2, Imap Session.ConnectionEnd)] h) =
  [found (Materializer.materialize t1 parsed)
     (Js.seconds_toFixed2 (t2 - startTime h))].
Proof.
  intros H Hr. pose proof (race_pending_of_no_response h H Hr) as R.
  destruct H as [P S [E E' T]]. destruct (P R) as (_ & Hp & _).
  specialize (E Hp).
  destruct h as [st pr sj [cfg ss fe tm pm o1 o2 o3] rc rt cs rs].
  simpl in *. subst. reflexivity.
Qed.

(** C7. The date of the normalised message is the ISO rendering of the
    date the parser delivered when it delivered one (the parser delivers
    valid dates only), and otherwise of the clock read when the parser's
    callback runs.  A missing date is no error: when the connection then
    ends, the request is answered 200 with that message. *)
Theorem date_falls_back_to_now :
  forall (now : Z) (body : Body) (h0 : Handler) (schedule : list (Z * Event))
         (t1 t2 : Z) (parsed : Parsed.t),
    fetch_email now body = Launched h0 ->
    responses (run schedule h0) = [] ->
    let e := Materializer.materialize t1 parsed in
    (forall d, Parsed.date parsed = Some d -> Email.date e = Js.toISOString d) /\
    (Parsed.date parsed = None -> Email.date e = Js.toISOString t1) /\
    responses (run [(t1, Imap (Session.ParserDone (Session.Ok parsed)));
                    (t2, Imap Session.ConnectionEnd)] (run schedule h0)) =
    [found e (Js.seconds_toFixed2 (t2 - now))].
Proof.
  intros now body h0 schedule t1 t2 parsed L Hr e. subst e.
  split; [|split].
  - intros d Hd. simpl. unfold Materializer.date_field. now rewrite Hd.
  - intros Hd. simpl. unfold Materializer.date_field. now rewrite Hd.
  - rewrite found_after_parse; [|apply Inv_run, (Inv_launch _ _ _ L)|exact Hr].
    now rewrite startTime_run, (startTime_launch _ _ _ L).
Qed.

Lemma date_falls_back_to_now_witness :
  fetch_email 1000 (sample_body "gmail") = Launched (sample_handler "gmail") /\
  responses (run sample_progress (sample_handler "gmail")) = [] /\
  Email.date (Materializer.materialize 1400 undated) =
    "1970-01-01T00:00:01.400Z" /\
  responses (run [(1400, Imap (Session.ParserDone (Session.Ok undated)));
                  (1515, Imap Session.ConnectionEnd)]
               (run sample_progress (sample_handler "gmail"))) =
  [{| status := 200;
      payload := Success (Materializer.materialize 1400 undated) "0.52" |}].
Proof.
  split; [reflexivity|]. split; [reflexivity|].
  pose proof (date_falls_back_to_now 1000 (sample_body "gmail")
                (sample_handler "gmail") sample_progress 1400 1515 undated
                eq_refl eq_refl) as (_ & Hnone & Hfound).
  split; [exact (Hnone eq_refl) | exact Hfound].
Defined.

(** C8. A message with neither a native HTML part nor a plain-text part
    is normalised to empty [html] and [text], and it is still a found
    message: when the connection ends, the request is answered 200 with
    it. *)
Theorem empty_message_is_found :
  forall (now : Z) (body : Body) (h0 : Handler) (schedule : list (Z * Event))
         (t1 t2 : Z) (parsed : Parsed.t),
    fetch_email now body = Launched h0 ->
    responses (run schedule h0) = [] ->
    Parsed.html parsed = None ->
    Parsed.text_part parsed = None ->
    let e := Materializer.materialize t1 parsed in
    Email.html e = EmptyString /\
    Email.text e = EmptyString /\
    responses (run [(t1, Imap (Session.ParserDone (Session.Ok parsed)));
                    (t2, Imap Session.ConnectionEnd)] (run schedule h0)) =
    [found e (Js.seconds_toFixed2 (t2 - now))].
Proof.
  intros now body h0 schedule t1 t2 parsed L Hr Hh Ht e. subst e.
  split; [|split].
  - simpl. unfold Materializer.htmlContent. now rewrite Hh, Ht.
  - simpl. now rewrite Ht.
  - rewrite found_after_parse; [|apply Inv_run, (Inv_launch _ _ _ L)|exact Hr].
    now rewrite startTime_run, (startTime_launch _ _ _ L).
Qed.

Lemma empty_message_is_found_witness :
  fetch_email 1000 (sample_body "gmail") = Launched (sample_handler "gmail") /\
  responses (run sample_progress (sample_handler "gmail")) = [] /\
  responses (run [(1400, Imap (Session.ParserDone (Session.Ok headers_only)));
                  (1515, Imap Session.ConnectionEnd)]
               (run sample_progress (sample_handler "gmail"))) =
  [{| status := 200;
      payload :=
        Success
          {| Email.subject := "Invoice #2024";
             Email.from := EmptyString; Email.to := EmptyString;
             Email.date := "2023-11-14T22:13:20.000Z";
             Email.html := EmptyString; Email.text := EmptyString |}
          "0.52" |}].
Proof.
  split; [reflexivity|]. split; [reflexivity|].
  exact (proj2 (proj2 (empty_message_is_found 1000 (sample_body "gmail")
                         (sample_handler "gmail") sample_progress 1400 1515
                         headers_only eq_refl eq_refl eq_refl eq_refl))).
Defined.

(** ** The response of an unanswered request *)

(** What a reachable, unanswered request looks like. *)
Lemma unanswered h :
  Inv h -> responses h = [] ->
  race h = Js.Pending /\
  Session.promise (session h) = Js.Pending /\
  Session.once_end (session h) = true /\
  race_timer h = Some (startTime h + race_timeout_ms).
Proof.
  intros H Hr. pose proof (race_pending_of_no_response h H Hr) as R.
  destruct H as [P S [E E' T]]. destruct (P R) as (_ & Hp & Ht). auto.
Qed.

(** A callback of the session answers an unanswered request exactly when
    it settles the promise of the session. *)
Lemma responses_step_imap t e h :
  Inv h -> responses h = [] ->
  responses (step t (Imap e) h) =
  respond h t (Session.promise (fst (Session.step t e (session h)))).
Proof.
  intros H Hr. destruct (unanswered h H Hr) as (R & _).
  rewrite step_imap. unfold settle_race; simpl. rewrite R, Hr. simpl.
  now destruct (Session.promise _).
Qed.

Lemma responses_step_race_timer t h :
  Inv h -> responses h = [] ->
  responses (step t RaceTimer h) =
  if startTime h + race_timeout_ms <=? t
  then [on_rejected h t "Search timeout - taking too long"]
  else [].
Proof.
  intros H Hr. destruct (unanswered h H Hr) as (R & _ & _ & Ht).
  unfold step. rewrite Ht.
  destruct (_ <=? _); [|exact Hr].
  unfold settle_race; simpl. rewrite R, Hr. reflexivity.
Qed.

Lemma on_rejected_status h t m :
  let r := on_rejected h t m in
  (status r = 408 /\ duration_of r = Some (Js.seconds_toFixed2 (t - startTime h)))
  \/ ((status r = 401 \/ status r = 500) /\ duration_of r = None).
Proof.
  unfold on_rejected. simpl.
  destruct (Js.includes m "timeout"); [left; split; reflexivity|].
  destruct (_ || _); right; split; auto.
Qed.

(** ** The deadline *)







(** ** Not found *)

(** The response is 404 exactly when the race is fulfilled with [null]. *)
Lemma respond_404 h t (outcome : Js.Promise (option Email.t)) :
  (exists r, respond h t outcome = [r] /\ status r = 404) <->
  outcome = Js.Resolved None.
Proof.
  split.
  - intros (r & Hr & Hs). destruct outcome as [|[e|]|m]; simpl in Hr.
    + discriminate.
    + injection Hr as <-. discriminate.
    + reflexivity.
    + injection Hr as <-.
      destruct (on_rejected_status h t m) as [[H _]|[[H|H] _]];
        simpl in H; rewrite H in Hs; discriminate.
  - intros ->. simpl. eauto.
Qed.

(** The three callbacks that resolve the promise of the session with
    [null]. *)
Lemma session_resolves_null t e s :
  Session.promise s = Js.Pending -> Session.once_end s = true ->
  (Session.promise (fst (Session.step t e s)) = Js.Resolved None <->
   (e = Session.BoxOpened (Session.Ok 0) \/
    e = Session.SearchDone (Session.Ok []) \/
    (e = Session.ConnectionEnd /\ Session.foundEmail s = None))).
Proof.
  intros Hp He. destruct s as [cfg ss fe tm pm o1 o2 o3]. simpl in *. subst.
  split.
  - destruct e as [ |m| |[m|total]|[m|results]|[m|parsed]|m| ]; simpl;
      break_match; simpl; try discriminate.
    + intros [= ->]. auto.
    + intros _. left. f_equal. f_equal. now apply Z.eqb_eq.
    + intros _. right. left. destruct results; [reflexivity|discriminate].
  - intros [->|[->|[-> ->]]]; reflexivity.
Qed.

(** C3, as the code has it.  An unanswered request is answered 404 by
    exactly three callbacks: the mailbox opens with zero messages in
    total; the search returns no identifier; or the connection ends while
    no message has been recorded.  In the first two the callback ends the
    connection and makes no other call: with zero messages no search is
    issued. *)
Theorem not_found_causes :
  forall (now : Z) (body : Body) (h0 : Handler) (schedule : list (Z * Event))
         (t : Z) (ev : Event),
    fetch_email now body = Launched h0 ->
    let h := run schedule h0 in
    responses h = [] ->
    ((exists r, responses (step t ev h) = [r] /\ status r = 404) <->
     (ev = Imap (Session.BoxOpened (Session.Ok 0)) \/
      ev = Imap (Session.SearchDone (Session.Ok [])) \/
      (ev = Imap Session.ConnectionEnd /\
       Session.foundEmail (session h) = None))) /\
    calls (step t (Imap (Session.BoxOpened (Session.Ok 0))) h) =
      (calls h ++ [Session.CallEnd])%list /\
    calls (step t (Imap (Session.SearchDone (Session.Ok []))) h) =
      (calls h ++ [Session.CallEnd])%list.
Proof.
  intros now body h0 schedule t ev L h Hr.
  assert (I : Inv h) by (apply Inv_run, (Inv_launch _ _ _ L)).
  destruct (unanswered h I Hr) as (R & Hp & He & Ht).
  split; [|split; rewrite calls_step_imap; reflexivity].
  destruct ev as [e|].
  - rewrite responses_step_imap by assumption.
    rewrite respond_404, (session_resolves_null t e _ Hp He).
    split.
    + intros [->|[->|[-> Hf]]]; auto.
    + intros [[= ->]|[[= ->]|[[= ->] Hf]]]; auto.
  - rewrite responses_step_race_timer by assumption.
    split.
    + intros (r & Hs & H404). destruct (_ <=? _); [|discriminate].
      injection Hs as <-. discriminate.
    + intros [H|[H|[H _]]]; discriminate.
Qed.

Lemma not_found_causes_witness :
  fetch_email 1000 (sample_body "gmail") = Launched (sample_handler "gmail") /\
  responses (run sample_progress (sample_handler "gmail")) = [] /\
  exists r,
    responses (step 1400 (Imap (Session.SearchDone (Session.Ok [])))
                 (run sample_progress (sample_handler "gmail"))) = [r] /\
    status r = 404.
Proof.
  split; [reflexivity|]. split; [reflexivity|].
  apply (proj1 (not_found_causes 1000 (sample_body "gmail")
                  (sample_handler "gmail") sample_progress 1400
                  (Imap (Session.SearchDone (Session.Ok [])))
                  eq_refl eq_refl)).
  right. left. reflexivity.
Defined.

(** C3, as stated, fails: the request below is answered 404 although the
    mailbox reported three messages and no search returned an empty
    sequence. *)
Lemma not_found_without_empty_result :
  fetch_email 1000 (sample_body "gmail") = Launched (sample_handler "gmail") /\
  responses (run connection_lost (sample_handler "gmail")) =
    [not_found "Invoice #2024"] /\
  status (not_found "Invoice #2024") = 404 /\
  ~ In (Imap (Session.BoxOpened (Session.Ok 0))) (map snd connection_lost) /\
  ~ In (Imap (Session.SearchDone (Session.Ok []))) (map snd connection_lost).
Proof.
  repeat split; try reflexivity.
  - simpl. intros [H|[H|[H|[]]]]; discriminate.
  - simpl. intros [H|[H|[H|[]]]]; discriminate.
Qed.

(** ** The elapsed duration *)

Lemma all_digits_of_uint d : all_digits (NilEmpty.string_of_uint d) = true.
Proof. induction d; simpl; auto. Qed.

Lemma digits_shape n : Js.digits n <> EmptyString /\ all_digits (Js.digits n) = true.
Proof.
  unfold Js.digits, NilZero.string_of_uint.
  destruct (N.to_uint (Z.to_N n)) eqn:E;
    try (split; [discriminate | apply (all_digits_of_uint (_ _))]).
  split; [discriminate | reflexivity].
Qed.

Lemma digit_shape n : exists c, Js.digit n = String c EmptyString /\ is_digit c = true.
Proof.
  unfold Js.digit. eexists. split; [reflexivity|].
  assert (H : (Z.to_nat (n mod 10) < 10)%nat).
  { pose proof (Z.mod_pos_bound n 10 ltac:(lia)). lia. }
  generalize dependent (Z.to_nat (n mod 10)). intros k H.
  do 10 (destruct k as [|k]; [reflexivity|]). lia.
Qed.

Lemma fixed2_shape k :
  exists whole a b,
    Js.fixed2 k = whole ++ "." ++ String a (String b EmptyString) /\
    whole <> EmptyString /\ all_digits whole = true /\
    is_digit a = true /\ is_digit b = true.
Proof.
  unfold Js.fixed2.
  destruct (digit_shape (k / 10)) as (a & -> & Ha).
  destruct (digit_shape k) as (b & -> & Hb).
  destruct (digits_shape (k / 100)) as (Hn & Hd).
  exists (Js.digits (k / 100)), a, b. auto.
Qed.

Lemma seconds_toFixed2_shape ms : two_decimals (Js.seconds_toFixed2 ms).
Proof.
  unfold Js.seconds_toFixed2, two_decimals.
  destruct (ms <? 0).
  - destruct (fixed2_shape (Js.hundredths (- ms))) as (w & a & b & -> & H).
    exists "-", w, a, b. intuition.
  - destruct (fixed2_shape (Js.hundredths ms)) as (w & a & b & -> & H).
    exists EmptyString, w, a, b. intuition.
Qed.

Lemma respond_duration h t (outcome : Js.Promise (option Email.t)) r :
  In r (respond h t outcome) ->
  ((status r = 200 \/ status r = 408) /\
   duration_of r = Some (Js.seconds_toFixed2 (t - startTime h))) \/
  ((status r = 401 \/ status r = 404 \/ status r = 500) /\
   duration_of r = None).
Proof.
  destruct outcome as [|[e|]|m]; simpl; intros H; try contradiction;
    destruct H as [<-|[]].
  - left. auto.
  - right. auto.
  - destruct (on_rejected_status h t m) as [[H1 H2]|[[H1|H1] H2]]; auto.
Qed.

(** C6, as the code has it.  The responses to a request that is rejected
    before any connection (400) carry no duration.  Of the responses sent
    after the race has settled, the success (200) and the timeout (408)
    carry the duration elapsed since the request arrived, in seconds with
    two decimals; the others (401, 404 and 500) carry none. *)
Theorem duration_on_success_and_timeout :
  forall (now : Z) (body : Body),
    (forall r, fetch_email now body = Replied r ->
       status r = 400 /\ duration_of r = None) /\
    (forall h0 schedule t ev r,
       fetch_email now body = Launched h0 ->
       responses (run schedule h0) = [] ->
       In r (responses (step t ev (run schedule h0))) ->
       ((status r = 200 \/ status r = 408) /\
        duration_of r = Some (Js.seconds_toFixed2 (t - now)) /\
        two_decimals (Js.seconds_toFixed2 (t - now))) \/
       ((status r = 401 \/ status r = 404 \/ status r = 500) /\
        duration_of r = None)).
Proof.
  intros now body. split.
  - unfold fetch_email. intros r.
    destruct (provider body) as [p|], (username body) as [u|],
      (password body) as [w|], (subject body) as [s|];
      try (intros [= <-]; split; reflexivity).
    destruct (_ || _); [intros [= <-]; split; reflexivity|].
    destruct (negb _); [intros [= <-]; split; reflexivity|].
    discriminate.
  - intros h0 schedule t ev r L Hr Hin.
    assert (I : Inv (run schedule h0)) by (apply Inv_run, (Inv_launch _ _ _ L)).
    assert (St : startTime (run schedule h0) = now).
    { now rewrite startTime_run, (startTime_launch _ _ _ L). }
    assert (D : In r (responses (step t ev (run schedule h0))) ->
                exists outcome, In r (respond (run schedule h0) t outcome)).
    { destruct ev as [e|].
      - rewrite responses_step_imap by assumption. eauto.
      - rewrite responses_step_race_timer by assumption.
        destruct (_ <=? _); [|contradiction].
        intros H. exists (Js.Rejected "Search timeout - taking too long").
        exact H. }
    destruct (D Hin) as (outcome & Ho).
    destruct (respond_duration _ _ _ _ Ho) as [[Hs Hd]|[Hs Hd]].
    + left. rewrite St in Hd. repeat split; auto.
      apply seconds_toFixed2_shape.
    + right. auto.
Qed.

Lemma duration_on_success_and_timeout_witness :
  fetch_email 1000 (sample_body "gmail") = Launched (sample_handler "gmail") /\
  responses (run sample_progress (sample_handler "gmail")) = [] /\
  duration_of (request_timeout "90.00") = Some (Js.seconds_toFixed2 90000).
Proof.
  split; [reflexivity|]. split; [reflexivity|].
  destruct (proj2 (duration_on_success_and_timeout 1000 (sample_body "gmail"))
              (sample_handler "gmail") sample_progress 91000 RaceTimer
              (request_timeout "90.00") eq_refl eq_refl
              (or_introl eq_refl)) as [(_ & H & _)|([H|[H|H]] & _)].
  - exact H.
  - discriminate H.
  - discriminate H.
  - discriminate H.
Defined.

(** C6, as stated, fails: the 404 response and the 400 response below
    carry no duration. *)
Lemma not_found_has_no_duration :
  responses (run connection_lost (sample_handler "gmail")) =
    [not_found "Invoice #2024"] /\
  duration_of (not_found "Invoice #2024") = None /\
  fetch_email 1000 no_provider = Replied missing_fields /\
  duration_of missing_fields = None.
Proof. repeat split. Qed.

(** ** Rejected credentials *)

Lemma req_provider_step now ev h : req_provider (step now ev h) = req_provider h.
Proof.
  destruct ev as [e|].
  - rewrite step_imap. unfold settle_race; simpl. now destruct (race h).
  - unfold step, settle_race.
    destruct (race_timer h); [|reflexivity].
    destruct (_ <=? _); [|reflexivity]. simpl. now destruct (race h).
Qed.

Lemma req_provider_run schedule :
  forall h, req_provider (run schedule h) = req_provider h.
Proof.
  induction schedule as [|[now ev] rest IH]; simpl; intros h; [reflexivity|].
  now rewrite IH, req_provider_step.
Qed.

(** An error of the connection whose message carries one of the two
    phrases answers an unanswered request 401, with the help text chosen
    by [req.body.provider]. *)
Lemma credential_rejection_is_401 now body h0 schedule t m :
  fetch_email now body = Launched h0 ->
  responses (run schedule h0) = [] ->
  Js.includes m "Invalid credentials" || Js.includes m "LOGIN failed" = true ->
  responses (step t (Imap (Session.ImapError m)) (run schedule h0)) =
  [authentication_failed (help_text (req_provider h0))].
Proof.
  intros L Hr Hm.
  assert (I : Inv (run schedule h0)) by (apply Inv_run, (Inv_launch _ _ _ L)).
  destruct (unanswered _ I Hr) as (R & Hp & _).
  pose proof (sinv_error _ _ (inv_session _ I) Hp) as He.
  rewrite responses_step_imap by assumption.
  unfold Session.step. rewrite He, Hm. simpl.
  unfold Session.reject; simpl. rewrite Hp. simpl.
  unfold on_rejected. simpl. now rewrite req_provider_run.
Qed.

(** C5 fails for yahoo.  The credentials of a yahoo account are rejected;
    the answer is 401, but its help text is the common prefix only and
    holds no link, although the service documents one for yahoo in the
    [important] table of its root endpoint.  For gmail and outlook the
    help text holds the provider's link. *)
Theorem yahoo_rejection_help_has_no_link :
  fetch_email 1000 (sample_body "yahoo") = Launched (sample_handler "yahoo") /\
  responses
    (run [(1100, Imap (Session.ImapError "Invalid credentials (Failure)"))]
       (sample_handler "yahoo")) =
    [authentication_failed "Check your credentials. "] /\
  Js.includes "Check your credentials. "
    "https://login.yahoo.com/account/security" = false /\
  In ("yahoo",
      "Requires App Password: https://login.yahoo.com/account/security")
    Root.important /\
  Js.includes (help_text "gmail")
    "https://myaccount.google.com/apppasswords" = true /\
  Js.includes (help_text "outlook")
    "https://account.microsoft.com/security" = true.
Proof.
  repeat split. simpl. auto.
Qed.

(** ** Validation *)

(** A request with a missing or empty field is answered 400 at once. *)
Lemma missing_field_is_400 now body :
  Js.truthy (provider body) = false \/ Js.truthy (username body) = false \/
  Js.truthy (password body) = false \/ Js.truthy (subject body) = false ->
  fetch_email now body = Replied missing_fields.
Proof.
  unfold fetch_email.
  destruct (provider body) as [p|], (username body) as [u|],
    (password body) as [w|], (subject body) as [s|]; simpl; try reflexivity.
  intros [H|[H|[H|H]]]; rewrite H; simpl;
    rewrite ?orb_true_r; reflexivity.
Qed.

(** [configs[key]] is [undefined] for every lower-case key outside
    [accepted_names]. *)
Lemma getImapConfig_undefined prov usr pwd :
  ~ In (Js.toLowerCase prov) accepted_names ->
  Config.getImapConfig prov usr pwd = Config.Undefined.
Proof.
  intros Hn. unfold Config.getImapConfig, Config.get.
  assert (O : Config.own_property (Config.configs usr pwd)
                (Js.toLowerCase prov) = None).
  { unfold Config.configs. cbn [Config.own_property].
    repeat match goal with
    | |- context [String.eqb ?a ?b] =>
        destruct (String.eqb_spec a b);
        [exfalso; apply Hn; unfold accepted_names; cbn [In]; auto|]
    end. reflexivity. }
  rewrite O.
  destruct (existsb _ _) eqn:E; [|reflexivity].
  apply existsb_exists in E. destruct E as (k & Hin & Hk).
  apply String.eqb_eq in Hk. subst k.
  exfalso. apply Hn. unfold accepted_names. cbn [In].
  destruct (lowered_prototype_name _ Hin) as [<-|<-]; auto 6.
Qed.

(** A provider whose name in lower case is neither one of the three own
    properties of [configs] nor [constructor] nor [__proto__] is answered
    400 at once. *)
Lemma unknown_provider_is_400 now prov usr pwd subj :
  Js.truthy_string prov = true -> Js.truthy_string usr = true ->
  Js.truthy_string pwd = true -> Js.truthy_string subj = true ->
  ~ In (Js.toLowerCase prov) accepted_names ->
  fetch_email now {| provider := Some prov; username := Some usr;
                     password := Some pwd; subject := Some subj |} =
  Replied invalid_provider.
Proof.
  intros Hp Hu Hw Hs Hn. unfold fetch_email; simpl.
  rewrite Hp, Hu, Hw, Hs. simpl.
  now rewrite (getImapConfig_undefined prov usr pwd Hn).
Qed.

(** The three supported providers, in any case of the letters, start a
    session with the provider's host. *)
Lemma supported_provider_config prov usr pwd :
  In (Js.toLowerCase prov) ["gmail"; "outlook"; "yahoo"] ->
  exists hostname,
    Config.getImapConfig prov usr pwd =
    Config.Own (Config.entry usr pwd hostname) /\
    In hostname
      ["imap.gmail.com"; "outlook.office365.com"; "imap.mail.yahoo.com"].
Proof.
  unfold Config.getImapConfig. cbn [In].
  intros [<-|[<-|[<-|[]]]]; eexists; (split; [reflexivity|]);
    cbn [In]; auto.
Qed.

(** C9 fails for the provider name [constructor].  The lookup
    [configs[provider.toLowerCase()]] finds the member of that name that
    every object literal inherits, which is truthy; so the request is not
    answered 400: the session starts and [imap.connect()] is called.  The
    same holds for [__proto__], in any case of the letters. *)
Theorem inherited_provider_name_is_accepted :
  Config.getImapConfig "constructor" "user@example.com" "app-password" =
    Config.Inherited "constructor" /\
  fetch_email 1000 (sample_body "constructor") =
    Launched (sample_handler "constructor") /\
  calls (sample_handler "constructor") = [Session.CallConnect] /\
  responses (sample_handler "constructor") = [] /\
  fetch_email 1000 (sample_body "__PROTO__") =
    Launched (sample_handler "__PROTO__").
Proof. repeat split. Qed.

(* ================================================================== *)
(** * Further properties of the code *)
(* ================================================================== *)

(** ** [getImapConfig] on the supported providers *)

(** X1. For a provider that is [gmail], [outlook] or [yahoo] in any case
    of its letters, [getImapConfig] returns a configuration that carries
    the given user and password unchanged, the provider's host, port 993
    with TLS on, certificate verification off, and 15000 ms for both
    timeouts. *)
Theorem getImapConfig_supported :
  forall (prov usr pwd : string),
    In (Js.toLowerCase prov) ["gmail"; "outlook"; "yahoo"] ->
    exists c,
      Config.getImapConfig prov usr pwd = Config.Own c /\
      Config.user c = usr /\ Config.password c = pwd /\
      Config.port c = 993 /\ Config.tls c = true /\
      Config.rejectUnauthorized (Config.tlsOptions c) = false /\
      Config.authTimeout c = 15000 /\ Config.connTimeout c = 15000 /\
      (Js.toLowerCase prov = "gmail" -> Config.host c = "imap.gmail.com") /\
      (Js.toLowerCase prov = "outlook" ->
       Config.host c = "outlook.office365.com") /\
      (Js.toLowerCase prov = "yahoo" -> Config.host c = "imap.mail.yahoo.com").
Proof.
  intros prov usr pwd H. unfold Config.getImapConfig. cbn [In] in H.
  destruct H as [<-|[<-|[<-|[]]]]; eexists; (split; [reflexivity|]);
    repeat split; intros; try reflexivity; discriminate.
Qed.

Lemma getImapConfig_supported_witness :
  In (Js.toLowerCase "YaHoo") ["gmail"; "outlook"; "yahoo"] /\
  exists c,
    Config.getImapConfig "YaHoo" "user@example.com" "app-password" =
    Config.Own c /\
    Config.host c = "imap.mail.yahoo.com" /\ Config.port c = 993.
Proof.
  assert (H : In (Js.toLowerCase "YaHoo") ["gmail"; "outlook"; "yahoo"]).
  { cbn. auto. }
  split; [exact H|].
  destruct (getImapConfig_supported "YaHoo" "user@example.com" "app-password" H)
    as (c & E & _ & _ & P & _ & _ & _ & _ & _ & _ & Y).
  exists c. split; [exact E|]. split; [exact (Y eq_refl) | exact P].
Defined.

(** ** The outcome of validation *)

Lemma accepted_name_is_truthy prov usr pwd :
  In (Js.toLowerCase prov) accepted_names ->
  Config.truthy (Config.getImapConfig prov usr pwd) = true.
Proof.
  unfold Config.getImapConfig, accepted_names. cbn [In].
  intros [<-|[<-|[<-|[<-|[<-|[]]]]]]; reflexivity.
Qed.

Lemma accepted_names_dec (k : string) :
  {In k accepted_names} + {~ In k accepted_names}.
Proof. apply in_dec, string_dec. Qed.

(** X2. For a body whose four fields are each a string or missing, what
    the handler does before it awaits is decided by the body alone.  It
    answers 400 [Missing required fields] exactly when one of the four
    fields is missing or empty, whatever the provider; it answers 400
    [Invalid provider] exactly when the four fields are there and the
    provider, in lower case, is none of [gmail], [outlook], [yahoo],
    [constructor], [__proto__]; otherwise, and only then, it starts a
    session: one call of [connect], no response yet, the subject as
    given, the timer of the session due after 85000 ms and the timer of
    the race after 90000 ms.  Lower case is the built-in's: a provider
    spelt with the Kelvin sign for its [k] is accepted as [outlook]. *)
Theorem validation_outcome :
  forall (now : Z) (body : Body),
    (fetch_email now body = Replied missing_fields <->
     (Js.truthy (provider body) = false \/ Js.truthy (username body) = false \/
      Js.truthy (password body) = false \/ Js.truthy (subject body) = false)) /\
    (fetch_email now body = Replied invalid_provider <->
     (exists prov,
        provider body = Some prov /\ Js.truthy (provider body) = true /\
        Js.truthy (username body) = true /\ Js.truthy (password body) = true /\
        Js.truthy (subject body) = true /\
        ~ In (Js.toLowerCase prov) accepted_names)) /\
    (forall h, fetch_email now body = Launched h ->
       exists prov subj,
         provider body = Some prov /\ subject body = Some subj /\
         Js.truthy (username body) = true /\
         Js.truthy (password body) = true /\
         Js.truthy_string prov = true /\ Js.truthy_string subj = true /\
         In (Js.toLowerCase prov) accepted_names /\
         startTime h = now /\ req_provider h = prov /\ req_subject h = subj /\
         Session.searchSubject (session h) = subj /\
         calls h = [Session.CallConnect] /\ responses h = [] /\
         Session.timeout (session h) = Some (now + 85000) /\
         race_timer h = Some (now + 90000)) /\
    (forall r, fetch_email now body = Replied r ->
       r = missing_fields \/ r = invalid_provider).
Proof.
  intros now body. destruct body as [[p|] [u|] [w|] [s|]];
    unfold fetch_email; cbn [provider username password subject Js.truthy].
  2-16: (split; [|split; [|split]];
         [ split; [intros _; auto 6 | reflexivity]
         | split; [discriminate | intros (q & ? & ? & ? & ? & ? & ?);
                                  discriminate]
         | discriminate
         | intros r [= <-]; auto ]).
  destruct (Js.truthy_string p) eqn:Ep, (Js.truthy_string u) eqn:Eu,
    (Js.truthy_string w) eqn:Ew, (Js.truthy_string s) eqn:Es;
    cbn [negb orb].
  2-16: (split; [|split; [|split]];
         [ split; [intros _; auto 6 | reflexivity]
         | split; [discriminate | intros (q & ? & ? & ? & ? & ? & ?);
                                  discriminate]
         | discriminate
         | intros r [= <-]; auto ]).
  destruct (accepted_names_dec (Js.toLowerCase p)) as [Hin|Hout].
  - rewrite (accepted_name_is_truthy p u w Hin). cbn [negb].
    split; [|split; [|split]].
    + split; [discriminate | intros [H|[H|[H|H]]]; discriminate].
    + split; [discriminate|].
      intros (q & [= <-] & _ & _ & _ & _ & Hq). contradiction.
    + intros h [= <-]. exists p, s. cbn. repeat split; auto.
    + discriminate.
  - rewrite (getImapConfig_undefined p u w Hout). cbn [Config.truthy negb].
    split; [|split; [|split]].
    + split; [discriminate | intros [H|[H|[H|H]]]; discriminate].
    + split; [|reflexivity]. intros _. exists p. repeat split; auto.
    + discriminate.
    + intros r [= <-]. auto.
Qed.

Lemma validation_outcome_witness :
  fetch_email 1000 (sample_body ("Outloo" ++ Js.kelvin_sign)) =
    Launched (sample_handler ("Outloo" ++ Js.kelvin_sign)) /\
  In (Js.toLowerCase ("Outloo" ++ Js.kelvin_sign)) accepted_names /\
  calls (sample_handler ("Outloo" ++ Js.kelvin_sign)) =
    [Session.CallConnect] /\
  race_timer (sample_handler ("Outloo" ++ Js.kelvin_sign)) =
    Some (1000 + 90000).
Proof.
  split; [reflexivity|].
  destruct (proj1 (proj2 (proj2 (validation_outcome 1000
                                   (sample_body ("Outloo" ++ Js.kelvin_sign)))))
              (sample_handler ("Outloo" ++ Js.kelvin_sign)) eq_refl)
    as (p & s & Hp & _ & _ & _ & _ & _ & A & _ & _ & _ & _ & C & _ & _ & R).
  injection Hp as <-.
  split; [exact A|]. split; [exact C | exact R].
Defined.

(** ** The normalised message *)

(** X8. A message with every field present, and subject, HTML part and
    text part not empty, is normalised without loss: subject, sender,
    recipient, HTML and text come through unchanged and the date is the
    ISO rendering of the parsed date.  The native HTML wins: the text is
    not wrapped, and it is still returned as [text].  A message with no
    field at all is normalised to empty strings and the clock of the
    parser's callback. *)
Theorem materialize_keeps_fields :
  forall (now : Z) (s f t : string) (d : Z) (h x : string),
    s <> EmptyString -> h <> EmptyString -> x <> EmptyString ->
    Materializer.materialize now (complete s f t d h x) =
      {| Email.subject := s; Email.from := f; Email.to := t;
         Email.date := Js.toISOString d; Email.html := h; Email.text := x |} /\
    Materializer.materialize now
      {| Parsed.subject := None; Parsed.from := None; Parsed.to := None;
         Parsed.date := None; Parsed.html := None;
         Parsed.text_part := None |} =
      {| Email.subject := EmptyString; Email.from := EmptyString;
         Email.to := EmptyString; Email.date := Js.toISOString now;
         Email.html := EmptyString; Email.text := EmptyString |}.
Proof.
  intros now s f t d h x Hs Hh Hx. split; [|reflexivity].
  unfold Materializer.materialize, Materializer.htmlContent, complete.
  cbn [Parsed.subject Parsed.from Parsed.to Parsed.date Parsed.html
       Parsed.text_part Materializer.address_text Materializer.date_field
       Parsed.text].
  destruct s; [congruence|]. destruct h; [congruence|].
  destruct x; [congruence|]. reflexivity.
Qed.

Lemma materialize_keeps_fields_witness :
  Email.html
    (Materializer.materialize 0
       (complete "Invoice #2024" "Billing <billing@example.com>"
          "user@example.com" 1700000000000 "<p>Total</p>" "Total")) =
  "<p>Total</p>".
Proof.
  rewrite (proj1 (materialize_keeps_fields 0 "Invoice #2024"
                    "Billing <billing@example.com>" "user@example.com"
                    1700000000000 "<p>Total</p>" "Total"
                    ltac:(discriminate) ltac:(discriminate)
                    ltac:(discriminate))).
  reflexivity.
Defined.

(** ** The calls on the connection *)

Lemma session_step_imap now e h :
  session (step now (Imap e) h) = fst (Session.step now e (session h)).
Proof. rewrite step_imap. unfold settle_race; simpl. now destruct (race h). Qed.

Lemma step_race_timer_frame now h :
  session (step now RaceTimer h) = session h /\
  calls (step now RaceTimer h) = calls h /\
  req_subject (step now RaceTimer h) = req_subject h.
Proof.
  unfold step, settle_race.
  destruct (race_timer h); [|auto].
  destruct (_ <=? _); [|auto]. simpl. now destruct (race h).
Qed.

Lemma req_subject_step now ev h : req_subject (step now ev h) = req_subject h.
Proof.
  destruct ev as [e|]; [|apply step_race_timer_frame].
  rewrite step_imap. unfold settle_race; simpl. now destruct (race h).
Qed.

(** What one callback of the session calls: expected calls only, never
    [connect], and [openBox] only by spending the [ready] handler. *)
Lemma session_step_calls now e s :
  let s' := fst (Session.step now e s) in
  let cs := snd (Session.step now e s) in
  Session.searchSubject s' = Session.searchSubject s /\
  Forall (expected_call (Session.searchSubject s)) cs /\
  forallb (fun c => negb (is_connect c)) cs = true /\
  (length (filter is_openBox cs) +
   (if Session.once_ready s' then 1 else 0) =
   (if Session.once_ready s then 1 else 0))%nat.
Proof.
  assert (X : forall subj c, expected_call subj c ->
                             Forall (expected_call subj) [c]).
  { intros subj c H. constructor; [exact H | constructor]. }
  destruct s as [cfg ss fe tm pm o1 o2 o3].
  destruct e as [ |m| |[m|total]|[m|results]|[m|parsed]|m| ];
    cbn -[Js.includes Z.eqb Z.leb Materializer.materialize];
    break_match; cbn -[Materializer.materialize];
    (split; [reflexivity|]);
    (split; [try (apply Forall_nil); apply X; unfold expected_call; eauto 6|]);
    (split; [reflexivity|]);
    destruct o1; reflexivity.
Qed.

Lemma CallsInv_step subj now ev h :
  CallsInv subj h -> CallsInv subj (step now ev h).
Proof.
  intros [Hs He (rest & Hc & Hn) Ho]. destruct ev as [e|].
  - pose proof (session_step_calls now e (session h)) as (S1 & S2 & S3 & S4).
    rewrite Hs in S1, S2.
    constructor; rewrite ?session_step_imap, ?calls_step_imap;
      unfold calls_of.
    + exact S1.
    + apply Forall_app. split; assumption.
    + exists (rest ++ snd (Session.step now e (session h)))%list.
      rewrite Hc. split; [reflexivity|].
      rewrite forallb_app, Hn, S3. reflexivity.
    + rewrite filter_app, length_app. lia.
  - destruct (step_race_timer_frame now h) as (E1 & E2 & _).
    constructor; rewrite ?E1, ?E2; eauto.
Qed.

Lemma CallsInv_run subj schedule :
  forall h, CallsInv subj h -> CallsInv subj (run schedule h).
Proof.
  induction schedule as [|[now ev] rest IH]; simpl; intros h H; [exact H|].
  apply IH, CallsInv_step, H.
Qed.

(** X3. Whatever callbacks run and in whatever order, the calls a request
    makes on its connection are these only: [connect], exactly once and
    first; [openBox] of [INBOX], read-only, at most once; searches of all
    messages for the subject of the request; fetches of whole messages
    with [markSeen] false; and [end].  So the mailbox is never opened for
    writing and no message is ever marked as seen. *)
Theorem calls_are_read_only :
  forall (now : Z) (body : Body) (h0 : Handler) (schedule : list (Z * Event)),
    fetch_email now body = Launched h0 ->
    let h := run schedule h0 in
    Forall (expected_call (req_subject h0)) (calls h) /\
    subject body = Some (req_subject h0) /\
    (exists rest, calls h = Session.CallConnect :: rest /\
                  forallb (fun c => negb (is_connect c)) rest = true) /\
    (length (filter is_openBox (calls h)) <= 1)%nat.
Proof.
  intros now body h0 schedule L h.
  destruct (launched_inversion _ _ _ L)
    as (p & u & w & s & -> & _ & _ & _ & _ & _ & E).
  assert (I0 : CallsInv s h0).
  { subst h0. constructor; simpl; auto.
    - repeat constructor.
    - exists []. auto. }
  assert (Rs : req_subject h0 = s) by (subst h0; reflexivity).
  destruct (CallsInv_run s schedule h0 I0) as [Hs He Hc Ho].
  rewrite Rs. fold h in He, Hc, Ho. repeat split; auto. lia.
Qed.

Lemma calls_are_read_only_witness :
  fetch_email 1000 (sample_body "gmail") = Launched (sample_handler "gmail") /\
  Forall (expected_call "Invoice #2024")
    (calls (run (sample_progress ++ [(1350, Imap Session.Ready)])
              (sample_handler "gmail"))).
Proof.
  split; [reflexivity|].
  exact (proj1 (calls_are_read_only 1000 (sample_body "gmail")
                  (sample_handler "gmail")
                  (sample_progress ++ [(1350, Imap Session.Ready)])
                  eq_refl)).
Defined.

(** ** Where a found message comes from *)

(** Only a successful callback of the parser writes [foundEmail]. *)
Lemma foundEmail_step now e s :
  Session.foundEmail (fst (Session.step now e s)) =
  match e with
  | Session.ParserDone (Session.Ok parsed) =>
      Some (Materializer.materialize now parsed)
  | _ => Session.foundEmail s
  end.
Proof.
  destruct s as [cfg ss fe tm pm o1 o2 o3].
  destruct e as [ |m| |[m|total]|[m|results]|[m|parsed]|m| ];
    cbn -[Js.includes Z.eqb Z.leb Materializer.materialize];
    break_match; reflexivity.
Qed.

Lemma foundEmail_run schedule :
  forall h,
    Session.foundEmail (session (run schedule h)) =
    last_parsed schedule (Session.foundEmail (session h)).
Proof.
  induction schedule as [|[now ev] rest IH]; intros h; [reflexivity|].
  cbn [run]. rewrite IH. destruct ev as [e|].
  - rewrite session_step_imap, foundEmail_step.
    destruct e as [ |m| |r|r|[m|parsed]|m| ]; reflexivity.
  - now rewrite (proj1 (step_race_timer_frame now h)).
Qed.

(** The promise of the session is resolved with a message only by the
    [end] handler, and then with the recorded one. *)
Lemma promise_step_message now e s msg :
  Session.promise (fst (Session.step now e s)) = Js.Resolved (Some msg) ->
  Session.promise s = Js.Resolved (Some msg) \/ Session.foundEmail s = Some msg.
Proof.
  destruct s as [cfg ss fe tm pm o1 o2 o3].
  destruct e as [ |m| |[m|total]|[m|results]|[m|parsed]|m| ];
    cbn -[Js.includes Z.eqb Z.leb Materializer.materialize];
    break_match; cbn -[Materializer.materialize];
    destruct pm; cbn; intros H; try discriminate; auto;
    injection H as <-; auto.
Qed.

Lemma responses_step_cases now ev h r :
  In r (responses (step now ev h)) ->
  In r (responses h) \/
  (exists e, ev = Imap e /\
     In r (respond h now
             (Session.promise (fst (Session.step now e (session h)))))) \/
  (ev = RaceTimer /\ r = on_rejected h now "Search timeout - taking too long").
Proof.
  destruct ev as [e|].
  - rewrite step_imap. unfold settle_race; simpl.
    destruct (race h); auto. cbn [responses]. rewrite in_app_iff.
    intros [H|H]; auto. right. left. exists e. split; [reflexivity|].
    destruct (Session.promise _); exact H.
  - unfold step, settle_race.
    destruct (race_timer h); auto.
    destruct (_ <=? _); auto. simpl.
    destruct (race h); simpl; auto. rewrite in_app_iff.
    intros [H|[<-|[]]]; auto.
Qed.

Lemma respond_200 h now (outcome : Js.Promise (option Email.t)) r :
  In r (respond h now outcome) -> status r = 200 ->
  exists e d, r = found e d /\ outcome = Js.Resolved (Some e).
Proof.
  destruct outcome as [|[e|]|m]; simpl; intros H Hs; try contradiction;
    destruct H as [<-|[]].
  - eauto.
  - discriminate.
  - destruct (on_rejected_status h now m) as [[H _]|[[H|H] _]];
      simpl in H; rewrite H in Hs; discriminate.
Qed.

Lemma Provenance_step (S S' : Email.t -> Prop) now ev h :
  Provenance S h ->
  (forall e, S e -> S' e) ->
  (forall parsed, ev = Imap (Session.ParserDone (Session.Ok parsed)) ->
                  S' (Materializer.materialize now parsed)) ->
  Provenance S' (step now ev h).
Proof.
  intros [Pf Pp Pr] Hw Hn.
  assert (Pp' : forall e0 msg,
            Session.promise (fst (Session.step now e0 (session h))) =
            Js.Resolved (Some msg) -> S' msg).
  { intros e0 msg H. destruct (promise_step_message _ _ _ _ H); auto. }
  constructor.
  - intros e. destruct ev as [e0|].
    + rewrite session_step_imap, foundEmail_step.
      destruct e0 as [ |m| |r|r|[m|parsed]|m| ]; auto.
      intros [= <-]. now apply Hn.
    + rewrite (proj1 (step_race_timer_frame now h)). auto.
  - intros e. destruct ev as [e0|].
    + rewrite session_step_imap. apply Pp'.
    + rewrite (proj1 (step_race_timer_frame now h)). auto.
  - intros r Hin Hs.
    destruct (responses_step_cases _ _ _ _ Hin) as [H|[(e0 & -> & H)|[-> ->]]].
    + destruct (Pr r H Hs) as (e & d & -> & He). eauto.
    + destruct (respond_200 _ _ _ _ H Hs) as (e & d & -> & Ho). eauto.
    + unfold on_rejected in Hs. simpl in Hs. discriminate.
Qed.

Lemma Provenance_run schedule :
  forall (S : Email.t -> Prop) h,
    Provenance S h ->
    Provenance (fun e => S e \/ from_schedule schedule e) (run schedule h).
Proof.
  induction schedule as [|[now ev] rest IH]; intros S h H; cbn [run].
  - destruct H as [Pf Pp Pr]. constructor; auto.
    intros r Hin Hs. destruct (Pr r Hin Hs) as (e & d & -> & He). eauto.
  - pose (S' := fun e => S e \/ from_schedule [(now, ev)] e).
    assert (H' : Provenance S' (step now ev h)).
    { apply (Provenance_step S S'); [exact H | unfold S'; auto |].
      intros parsed ->. right. exists now, parsed. cbn. auto. }
    destruct (IH S' _ H') as [Pf Pp Pr].
    assert (W : forall e, S' e \/ from_schedule rest e ->
                          S e \/ from_schedule ((now, ev) :: rest) e).
    { intros e [[He|(t & p & [He|[]] & ->)]|(t & p & He & ->)]; auto;
        right; exists t, p; cbn; auto. }
    constructor; auto.
    intros r Hin Hs. destruct (Pr r Hin Hs) as (e & d & -> & He). eauto.
Qed.

(** X4. The service never answers with a message of its own making.
    After any schedule, the recorded message is the normalisation of the
    last message the parser delivered, at the clock of that callback, and
    none is recorded when the parser delivered none; and every 200
    response carries the normalisation of a message the parser delivered
    during the schedule. *)
Theorem found_message_comes_from_parser :
  forall (now : Z) (body : Body) (h0 : Handler) (schedule : list (Z * Event)),
    fetch_email now body = Launched h0 ->
    Session.foundEmail (session (run schedule h0)) =
      last_parsed schedule None /\
    (forall r, In r (responses (run schedule h0)) -> status r = 200 ->
       exists e d, r = found e d /\ from_schedule schedule e).
Proof.
  intros now body h0 schedule L.
  destruct (launched_inversion _ _ _ L)
    as (p & u & w & s & _ & _ & _ & _ & _ & _ & ->).
  split.
  - now rewrite foundEmail_run.
  - intros r Hin Hs.
    assert (P0 : Provenance (fun _ => False)
                   {| startTime := now; req_provider := p; req_subject := s;
                      session :=
                        fst (Session.fetchEmailBySubjectOptimized now
                               (Config.getImapConfig p u w) s);
                      race := Js.Pending;
                      race_timer := Some (now + race_timeout_ms);
                      calls := [Session.CallConnect]; responses := [] |}).
    { constructor; simpl; intros; try discriminate; contradiction. }
    destruct (prov_response _ _ (Provenance_run schedule _ _ P0) r Hin Hs)
      as (e & d & -> & [[]|He]).
    eauto.
Qed.

Lemma found_message_comes_from_parser_witness :
  fetch_email 1000 (sample_body "gmail") = Launched (sample_handler "gmail") /\
  Session.foundEmail
    (session
       (run (sample_progress ++
             [(1400, Imap (Session.ParserDone (Session.Ok undated)));
              (1450, Imap (Session.ParserDone (Session.Ok headers_only)))])
          (sample_handler "gmail"))) =
  Some (Materializer.materialize 1450 headers_only).
Proof.
  split; [reflexivity|].
  exact (proj1 (found_message_comes_from_parser 1000 (sample_body "gmail")
                  (sample_handler "gmail")
                  (sample_progress ++
                   [(1400, Imap (Session.ParserDone (Session.Ok undated)));
                    (1450, Imap (Session.ParserDone (Session.Ok headers_only)))])
                  eq_refl)).
Defined.

(** ** Errors *)

Lemma callback_error_step now e m s :
  In e (callback_errors m) ->
  Session.step now e s = (Session.reject m (Session.clearTimeout s), []).
Proof. cbn [callback_errors In]. intros [<-|[<-|[<-|[<-|[]]]]]; reflexivity. Qed.

(** X5. An error of [openBox], of [search], of the parser or of the fetch
    stream is handed on with its message unchanged, while the request is
    unanswered: the session is rejected with that message, its timer is
    cleared, and no call is made on the connection, not even [end].  The
    answer is chosen by the text of the message alone: 408 when it
    contains [timeout]; otherwise 401 when it contains [LOGIN failed] or
    [Invalid credentials]; otherwise 500 with the message as the error. *)
Theorem callback_error_is_reported :
  forall (now : Z) (body : Body) (h0 : Handler) (schedule : list (Z * Event))
         (t : Z) (e : Session.Event) (m : string),
    fetch_email now body = Launched h0 ->
    responses (run schedule h0) = [] ->
    In e (callback_errors m) ->
    let timed_out := fun duration : string =>
      {| status := 408;
         payload :=
           Failure "Request timeout"
             (Some "Email search took too long. Try a more specific subject.")
             None (Some duration) |} in
    let unauthorized := fun help : string =>
      {| status := 401;
         payload := Failure "Authentication failed" None (Some help) None |} in
    let failed := fun message : string =>
      {| status := 500; payload := Failure message None None None |} in
    let h := run schedule h0 in
    let h' := step t (Imap e) h in
    calls h' = calls h /\
    Session.timeout (session h') = None /\
    Session.promise (session h') = Js.Rejected m /\
    (Js.includes m "timeout" = true ->
     responses h' = [timed_out (Js.seconds_toFixed2 (t - now))]) /\
    (Js.includes m "timeout" = false ->
     Js.includes m "LOGIN failed" || Js.includes m "Invalid credentials" = true ->
     responses h' = [unauthorized (help_text (req_provider h0))]) /\
    (Js.includes m "timeout" = false ->
     Js.includes m "LOGIN failed" || Js.includes m "Invalid credentials" = false ->
     responses h' = [failed m]).
Proof.
  intros now body h0 schedule t e m L Hr He timed_out unauthorized failed h h'.
  assert (E_timed_out : timed_out = request_timeout) by reflexivity.
  clearbody timed_out. subst timed_out.
  assert (E_unauthorized : unauthorized = authentication_failed) by reflexivity.
  clearbody unauthorized. subst unauthorized.
  assert (E_failed : failed = server_error) by reflexivity.
  clearbody failed. subst failed.
  assert (I : Inv h) by (apply Inv_run, (Inv_launch _ _ _ L)).
  destruct (unanswered h I Hr) as (R & Hp & _).
  assert (St : startTime h = now).
  { unfold h. now rewrite startTime_run, (startTime_launch _ _ _ L). }
  assert (Pv : req_provider h = req_provider h0) by apply req_provider_run.
  assert (E : responses h' = [on_rejected h t m]).
  { unfold h'. rewrite responses_step_imap by assumption.
    rewrite (callback_error_step t e m _ He). simpl. now rewrite Hp. }
  split; [|split; [|split; [|split; [|split]]]].
  - unfold h'. rewrite calls_step_imap. unfold calls_of.
    rewrite (callback_error_step t e m _ He). apply app_nil_r.
  - unfold h'. rewrite session_step_imap.
    now rewrite (callback_error_step t e m _ He).
  - unfold h'. rewrite session_step_imap.
    rewrite (callback_error_step t e m _ He). simpl. now rewrite Hp.
  - intros Ht. rewrite E. unfold on_rejected. now rewrite Ht, St.
  - intros Ht Hc. rewrite E. unfold on_rejected. now rewrite Ht, Hc, Pv.
  - intros Ht Hc. rewrite E. unfold on_rejected. now rewrite Ht, Hc.
Qed.

Lemma callback_error_is_reported_witness :
  fetch_email 1000 (sample_body "gmail") = Launched (sample_handler "gmail") /\
  responses (run sample_progress (sample_handler "gmail")) = [] /\
  In (Session.FetchError "read ECONNRESET") (callback_errors "read ECONNRESET") /\
  responses (step 1400 (Imap (Session.FetchError "read ECONNRESET"))
               (run sample_progress (sample_handler "gmail"))) =
  [{| status := 500;
      payload := Failure "read ECONNRESET" None None None |}].
Proof.
  split; [reflexivity|]. split; [reflexivity|].
  assert (H : In (Session.FetchError "read ECONNRESET")
                (callback_errors "read ECONNRESET")) by (cbn; auto).
  split; [exact H|].
  destruct (callback_error_is_reported 1000 (sample_body "gmail")
              (sample_handler "gmail") sample_progress 1400
              (Session.FetchError "read ECONNRESET") "read ECONNRESET"
              eq_refl eq_refl H) as (_ & _ & _ & _ & _ & S).
  exact (S eq_refl eq_refl).
Defined.

(** X6. An error event of the connection, while the request is
    unanswered, makes no call on the connection and is classified in the
    session first: a message that contains [Invalid credentials] or
    [LOGIN failed] is replaced by a fixed login message, so the answer is
    401 whatever else the message says; any other message is handed on
    unchanged, and the answer is 408 when it contains [timeout] and 500
    with the message as the error otherwise. *)
Theorem connection_error_is_classified :
  forall (now : Z) (body : Body) (h0 : Handler) (schedule : list (Z * Event))
         (t : Z) (m : string),
    fetch_email now body = Launched h0 ->
    responses (run schedule h0) = [] ->
    let timed_out := fun duration : string =>
      {| status := 408;
         payload :=
           Failure "Request timeout"
             (Some "Email search took too long. Try a more specific subject.")
             None (Some duration) |} in
    let unauthorized := fun help : string =>
      {| status := 401;
         payload := Failure "Authentication failed" None (Some help) None |} in
    let failed := fun message : string =>
      {| status := 500; payload := Failure message None None None |} in
    let h := run schedule h0 in
    let h' := step t (Imap (Session.ImapError m)) h in
    calls h' = calls h /\
    (Js.includes m "Invalid credentials" || Js.includes m "LOGIN failed" = true ->
     Session.promise (session h') = Js.Rejected Session.login_failed /\
     responses h' = [unauthorized (help_text (req_provider h0))]) /\
    (Js.includes m "Invalid credentials" || Js.includes m "LOGIN failed" = false ->
     Session.promise (session h') = Js.Rejected m /\
     (Js.includes m "timeout" = true ->
      responses h' = [timed_out (Js.seconds_toFixed2 (t - now))]) /\
     (Js.includes m "timeout" = false -> responses h' = [failed m])).
Proof.
  intros now body h0 schedule t m L Hr timed_out unauthorized failed h h'.
  assert (E_timed_out : timed_out = request_timeout) by reflexivity.
  clearbody timed_out. subst timed_out.
  assert (E_unauthorized : unauthorized = authentication_failed) by reflexivity.
  clearbody unauthorized. subst unauthorized.
  assert (E_failed : failed = server_error) by reflexivity.
  clearbody failed. subst failed.
  assert (I : Inv h) by (apply Inv_run, (Inv_launch _ _ _ L)).
  destruct (unanswered h I Hr) as (R & Hp & _).
  pose proof (sinv_error _ _ (inv_session _ I) Hp) as He.
  assert (St : startTime h = now).
  { unfold h. now rewrite startTime_run, (startTime_launch _ _ _ L). }
  split; [|split].
  - unfold h'. rewrite calls_step_imap. unfold calls_of, Session.step.
    rewrite He. destruct (_ || _); apply app_nil_r.
  - intros Hc. split.
    + unfold h'. rewrite session_step_imap. unfold Session.step.
      rewrite He, Hc. simpl. unfold Session.reject; simpl. now rewrite Hp.
    + apply (credential_rejection_is_401 now body h0 schedule t m L Hr Hc).
  - intros Hc.
    assert (Ep : Session.promise
                   (fst (Session.step t (Session.ImapError m) (session h))) =
                 Js.Rejected m).
    { unfold Session.step. rewrite He, Hc. simpl.
      unfold Session.reject; simpl. now rewrite Hp. }
    assert (Hc' : Js.includes m "LOGIN failed" ||
                  Js.includes m "Invalid credentials" = false).
    { rewrite orb_comm. exact Hc. }
    assert (E : responses h' = [on_rejected h t m]).
    { unfold h'. rewrite responses_step_imap by assumption. now rewrite Ep. }
    split; [|split].
    + unfold h'. now rewrite session_step_imap.
    + intros Ht. rewrite E. unfold on_rejected. now rewrite Ht, St.
    + intros Ht. rewrite E. unfold on_rejected. now rewrite Ht, Hc'.
Qed.

Lemma connection_error_is_classified_witness :
  fetch_email 1000 (sample_body "gmail") = Launched (sample_handler "gmail") /\
  responses (run sample_progress (sample_handler "gmail")) = [] /\
  responses
    (step 1400
       (Imap (Session.ImapError "LOGIN failed: connection timeout"))
       (run sample_progress (sample_handler "gmail"))) =
  [{| status := 401;
      payload :=
        Failure "Authentication failed" None
          (Some ("Check your credentials. " ++
                 "Gmail requires App Password: " ++
                 "https://myaccount.google.com/apppasswords"))
          None |}].
Proof.
  split; [reflexivity|]. split; [reflexivity|].
  destruct (connection_error_is_classified 1000 (sample_body "gmail")
              (sample_handler "gmail") sample_progress 1400
              "LOGIN failed: connection timeout" eq_refl eq_refl)
    as (_ & A & _).
  exact (proj2 (A eq_refl)).
Defined.

(** ** Between the parsed message and the end of the connection *)




(** ** When the connection is ended *)

(** X9. After any schedule, a callback of the session calls [end] on the
    connection in exactly four cases: the mailbox opened with zero
    messages, the search returned no identifier, the parser delivered a
    message, or the timer of the session fired while it was set.  No
    error callback ends the connection. *)
Theorem connection_is_ended_by :
  forall (now : Z) (body : Body) (h0 : Handler) (schedule : list (Z * Event))
         (t : Z) (e : Session.Event),
    fetch_email now body = Launched h0 ->
    let h := run schedule h0 in
    In Session.CallEnd (calls_of t e h) <->
    (e = Session.BoxOpened (Session.Ok 0) \/
     e = Session.SearchDone (Session.Ok []) \/
     (exists parsed, e = Session.ParserDone (Session.Ok parsed)) \/
     (e = Session.Timer /\
      exists due, Session.timeout (session h) = Some due /\ due <= t)).
Proof.
  intros now body h0 schedule t e L h.
  assert (I : Inv h) by (apply Inv_run, (Inv_launch _ _ _ L)).
  pose proof (sinv_timer _ _ (inv_session _ I)) as T.
  unfold calls_of. destruct (session h) as [cfg ss fe tm pm o1 o2 o3].
  simpl in T. split.
  - destruct e as [ |m| |[m|total]|[m|results]|[m|parsed]|m| ];
      cbn -[Js.includes Z.eqb Z.leb Materializer.materialize];
      break_match; cbn; intros H;
      repeat match goal with
      | H : _ \/ _ |- _ => destruct H
      | H : False |- _ => contradiction
      end; try discriminate; eauto 6.
    + left. f_equal. f_equal. now apply Z.eqb_eq.
    + right. left. destruct results; [reflexivity|discriminate].
    + right. right. right. split; [reflexivity|]. eexists. split; eauto.
      now apply Z.leb_le.
  - intros [->|[->|[(parsed & ->)|(-> & due & Hd & Ht)]]];
      cbn -[Materializer.materialize]; auto.
    simpl in Hd. subst tm. destruct (T due eq_refl) as (_ & -> & _).
    destruct (Z.leb_spec due t); [|lia]. cbn. auto.
Qed.

Lemma connection_is_ended_by_witness :
  fetch_email 1000 (sample_body "gmail") = Launched (sample_handler "gmail") /\
  ~ In Session.CallEnd
      (calls_of 1400 (Session.SearchDone (Session.Err "BAD Command"))
         (run sample_progress (sample_handler "gmail"))).
Proof.
  split; [reflexivity|].
  intros H.
  apply (proj1 (connection_is_ended_by 1000 (sample_body "gmail")
                  (sample_handler "gmail") sample_progress 1400
                  (Session.SearchDone (Session.Err "BAD Command"))
                  eq_refl)) in H.
  destruct H as [H|[H|[(p & H)|(H & _)]]]; discriminate H.
Defined.

(** ** The whole session *)

(** X10. When every stage succeeds (the connection gets ready, the
    mailbox opens with messages in it, the search returns identifiers,
    the parser delivers the message, the connection ends) and no timer
    fires in between, the request is answered 200 with the normalised
    message and the time elapsed until the [end] event, and the calls on
    the connection are, in this order: [connect], [openBox] of [INBOX]
    read-only, the search of all messages for the subject, the fetch of
    the last identifier found, and [end]. *)
Theorem happy_path_is_found :
  forall (now : Z) (body : Body) (h0 : Handler) (t1 t2 t3 t4 t5 total : Z)
         (results : list Z) (parsed : Parsed.t),
    fetch_email now body = Launched h0 ->
    total <> 0 -> results <> [] ->
    let ok := fun (e : Email.t) (duration : string) =>
      {| status := 200; payload := Success e duration |} in
    let h := run (happy_path t1 t2 t3 t4 t5 total results parsed) h0 in
    responses h =
      [ok (Materializer.materialize t4 parsed)
         (Js.seconds_toFixed2 (t5 - now))] /\
    calls h =
      [ Session.CallConnect;
        Session.CallOpenBox "INBOX" true;
        Session.CallSearch [Session.ALL; Session.SUBJECT (req_subject h0)];
        Session.CallFetch (Session.targetUid results) EmptyString false;
        Session.CallEnd ].
Proof.
  intros now body h0 t1 t2 t3 t4 t5 total results parsed L Ht Hres ok h.
  assert (E_ok : ok = found) by reflexivity.
  clearbody ok. subst ok.
  destruct (launched_inversion _ _ _ L)
    as (p & u & w & s & _ & _ & _ & _ & _ & _ & ->).
  assert (Et : (total =? 0) = false) by now apply Z.eqb_neq.
  destruct results as [|uid rest]; [congruence|].
  unfold h, happy_path.
  cbn -[Materializer.materialize Js.seconds_toFixed2 Z.eqb Session.targetUid].
  rewrite Et.
  cbn -[Materializer.materialize Js.seconds_toFixed2 Z.eqb Session.targetUid].
  split; reflexivity.
Qed.

Lemma happy_path_is_found_witness :
  fetch_email 1000 (sample_body "gmail") = Launched (sample_handler "gmail") /\
  7 <> 0 /\ [5; 12; 41] <> [] /\
  responses
    (run (happy_path 1100 1200 1300 1400 1515 7 [5; 12; 41] headers_only)
       (sample_handler "gmail")) =
  [{| status := 200;
      payload :=
        Success (Materializer.materialize 1400 headers_only) "0.52" |}].
Proof.
  split; [reflexivity|]. split; [lia|]. split; [discriminate|].
  exact (proj1 (happy_path_is_found 1000 (sample_body "gmail")
                  (sample_handler "gmail") 1100 1200 1300 1400 1515 7
                  [5; 12; 41] headers_only eq_refl ltac:(lia)
                  ltac:(discriminate))).
Defined.

(** ** The help text of a 401 response *)

(** X11. The help text of a 401 response is chosen by [req.body.provider]
    as it was sent, compared exactly: it holds a link exactly when the
    provider is [gmail] or [outlook] in lower case, and it is the common
    sentence alone for every other spelling, also for one that validation
    accepts, such as [Gmail]. *)
Theorem help_link_needs_exact_provider :
  forall (prov : string),
    (Js.includes (help_text prov) "https://" = true <->
     (prov = "gmail" \/ prov = "outlook")) /\
    (prov <> "gmail" -> prov <> "outlook" ->
     help_text prov = "Check your credentials. ").
Proof.
  intros prov. unfold help_text.
  destruct (String.eqb_spec prov "gmail") as [->|Hg].
  - split; [split; [auto | reflexivity] | congruence].
  - destruct (String.eqb_spec prov "outlook") as [->|Ho].
    + split; [split; [auto | reflexivity] | congruence].
    + split; [|reflexivity].
      split; [discriminate | intros [H|H]; congruence].
Qed.

Lemma help_link_needs_exact_provider_witness :
  "Gmail" <> "gmail" /\ "Gmail" <> "outlook" /\
  help_text "Gmail" = "Check your credentials. " /\
  Config.truthy
    (Config.getImapConfig "Gmail" "user@example.com" "app-password") = true.
Proof.
  split; [discriminate|]. split; [discriminate|].
  split; [|reflexivity].
  exact (proj2 (help_link_needs_exact_provider "Gmail")
           ltac:(discriminate) ltac:(discriminate)).
Defined.
